(** * The chat session store of [src/App.tsx]

    A shallow embedding of the state held by the [App] component (the chat
    collection, the cursor on the active chat, the loaded message log, the
    input line, the busy flag, the selected model and the error slot) and of
    the handlers that mutate it: [createNewChat], [updateCurrentChat],
    [handleSubmit], [selectChat] and [deleteChat].

    Conventions.
    - A JavaScript string is the sequence of its UTF-16 code units; a code
      unit is an [ascii] here, so the model covers the code units 0..255.
      [String.length] is the [length] property.
    - A number is a [Z] ([Date.now()], [createdAt], the HTTP status).
    - A handler is a closure over the state variables of the render that
      created it.  Each handler therefore takes that render's state [c] (what
      its free variables [chats], [currentChatId], [messages], [input],
      [model] read) and returns the transformation its queued [set...] calls
      perform on the state [s] they are applied to.  An element of the
      latest render runs its handler with [c = s]; the part of
      [handleSubmit] after [await] still reads the [c] of the render in
      which the submission started, and so does a click on a sidebar row
      that an earlier render left on screen. *)

From Stdlib Require Import ZArith String Ascii List Bool Lia.
From Stdlib Require Import DecimalString DecimalZ.
Import ListNotations.
Open Scope string_scope.
Open Scope Z_scope.

(** ** Strings and numbers of the host language *)

(** [Number.prototype.toString] on an integer: its decimal digits, with a
    leading minus sign below zero. *)
Definition toString (n : Z) : string :=
  NilEmpty.string_of_int (Z.to_int n).

(** [String.prototype.slice(start, end)]: negative indices count from the
    end, both are clamped to the string. *)
Definition slice (s : string) (start stop : Z) : string :=
  let len := Z.of_nat (String.length s) in
  let from := if start <? 0 then Z.max (len + start) 0 else Z.min start len in
  let to := if stop <? 0 then Z.max (len + stop) 0 else Z.min stop len in
  substring (Z.to_nat from) (Z.to_nat (Z.max (to - from) 0)) s.

(** White space and line terminators among the code units 0..255: TAB, LF,
    VT, FF, CR, SP and NBSP. *)
Definition isWhiteSpace (a : ascii) : bool :=
  match N_of_ascii a with
  | 9 | 10 | 11 | 12 | 13 | 32 | 160 => true
  | _ => false
  end%N.

Fixpoint trimStart (s : string) : string :=
  match s with
  | EmptyString => EmptyString
  | String a rest => if isWhiteSpace a then trimStart rest else s
  end.

Fixpoint trimEnd (s : string) : string :=
  match s with
  | EmptyString => EmptyString
  | String a rest =>
      match trimEnd rest with
      | EmptyString => if isWhiteSpace a then EmptyString else String a EmptyString
      | kept => String a kept
      end
  end.

(** [String.prototype.trim]. *)
Definition trim (s : string) : string := trimEnd (trimStart s).

(** Truthiness of a string: only the empty string is falsy. *)
Definition truthy (s : string) : bool := negb (s =? "")%string.

(** ** Data model *)

Inductive Role := user | assistant.

Definition Role_eqb (a b : Role) : bool :=
  match a, b with
  | user, user | assistant, assistant => true
  | _, _ => false
  end.

Module Message.
Record t := mk { role : Role; content : string }.
End Message.
Abbreviation Message := Message.t.

Module Chat.
Record t := mk {
  id : string;
  title : string;
  messages : list Message;
  model : string;
  createdAt : Z
}.
End Chat.
Abbreviation Chat := Chat.t.

(** The seven [useState] cells of [App]. *)
Record State := mkState {
  chats : list Chat;
  currentChatId : option string;
  messages : list Message;
  input : string;
  isLoading : bool;
  model : string;
  error : option string
}.

(** The values the [useState] calls start from. *)
Definition initial : State :=
  {| chats := []; currentChatId := None; messages := []; input := "";
     isLoading := false; model := "llama3.2:latest"; error := None |}.

(** *** State setters *)

Definition setChats (f : list Chat -> list Chat) (s : State) : State :=
  {| chats := f (chats s); currentChatId := currentChatId s;
     messages := messages s; input := input s; isLoading := isLoading s;
     model := model s; error := error s |}.

Definition setCurrentChatId (v : option string) (s : State) : State :=
  {| chats := chats s; currentChatId := v;
     messages := messages s; input := input s; isLoading := isLoading s;
     model := model s; error := error s |}.

Definition setMessages (v : list Message) (s : State) : State :=
  {| chats := chats s; currentChatId := currentChatId s;
     messages := v; input := input s; isLoading := isLoading s;
     model := model s; error := error s |}.

Definition setInput (v : string) (s : State) : State :=
  {| chats := chats s; currentChatId := currentChatId s;
     messages := messages s; input := v; isLoading := isLoading s;
     model := model s; error := error s |}.

Definition setIsLoading (v : bool) (s : State) : State :=
  {| chats := chats s; currentChatId := currentChatId s;
     messages := messages s; input := input s; isLoading := v;
     model := model s; error := error s |}.

Definition setModel (v : string) (s : State) : State :=
  {| chats := chats s; currentChatId := currentChatId s;
     messages := messages s; input := input s; isLoading := isLoading s;
     model := v; error := error s |}.

Definition setError (v : option string) (s : State) : State :=
  {| chats := chats s; currentChatId := currentChatId s;
     messages := messages s; input := input s; isLoading := isLoading s;
     model := model s; error := v |}.

(** *** Tests on the cursor *)

(** [!currentChatId]: true on [null] and on the empty string. *)
Definition noCurrentChat (cur : option string) : bool :=
  match cur with
  | None => true
  | Some i => negb (truthy i)
  end.

(** [currentChatId === chatId] (and [chat.id === currentChatId]). *)
Definition isCurrent (cur : option string) (chatId : string) : bool :=
  match cur with
  | None => false
  | Some i => (i =? chatId)%string
  end.

(** ** Handlers *)

(** [createNewChat]: the two [Date.now()] readings are [t_id] and
    [t_created]. *)
Definition createNewChat (c : State) (t_id t_created : Z) (s : State) : State :=
  let newChat :=
    {| Chat.id := toString t_id;
       Chat.title := "New Chat";
       Chat.messages := [];
       Chat.model := model c;
       Chat.createdAt := t_created |} in
  let s := setChats (fun prev => newChat :: prev) s in
  let s := setCurrentChatId (Some (Chat.id newChat)) s in
  setMessages [] s.

(** The title computed inside [updateCurrentChat] from the new log. *)
Definition titleOf (msgs : list Message) : string :=
  match find (fun m => Role_eqb (Message.role m) user) msgs with
  | Some firstUserMessage =>
      slice (Message.content firstUserMessage) 0 30
      ++ (if (30 <? Z.of_nat (String.length (Message.content firstUserMessage)))
          then "..." else "")
  | None => "New Chat"
  end.

(** The callback [updateCurrentChat] maps over the collection. *)
Definition updateChat (c : State) (msgs : list Message) (chat : Chat) : Chat :=
  if isCurrent (currentChatId c) (Chat.id chat) then
    {| Chat.id := Chat.id chat;
       Chat.title := titleOf msgs;
       Chat.messages := msgs;
       Chat.model := model c;
       Chat.createdAt := Chat.createdAt chat |}
  else chat.

Definition updateCurrentChat (c : State) (msgs : list Message) (s : State) : State :=
  if noCurrentChat (currentChatId c) then s
  else setChats (fun prev => map (updateChat c msgs) prev) s.

Definition selectChat (c : State) (chatId : string) (s : State) : State :=
  match find (fun ch => (Chat.id ch =? chatId)%string) (chats c) with
  | Some chat =>
      let s := setCurrentChatId (Some chatId) s in
      let s := setMessages (Chat.messages chat) s in
      setModel (Chat.model chat) s
  | None => s
  end.

Definition deleteChat (c : State) (chatId : string) (s : State) : State :=
  let keep := fun chat : Chat => negb (Chat.id chat =? chatId)%string in
  let s := setChats (fun prev => filter keep prev) s in
  if isCurrent (currentChatId c) chatId then
    let remainingChats := filter keep (chats c) in
    match remainingChats with
    | first :: _ => selectChat c (Chat.id first) s
    | [] =>
        let s := setCurrentChatId None s in
        setMessages [] s
    end
  else s.

(** *** The inference request *)

(** What a [catch] clause receives: an [Error] object with its message, or
    any other thrown value. *)
Inductive Caught := ErrorObject (message : string) | OtherValue.

(** A response of the server.  [text] is what [response.text()] settles to.
    [json] is what reading [(await response.json()).response] gives: a thrown
    value when the body does not parse or is [null], [None] when the field is
    missing, otherwise the string (the success body is [{response: string}]). *)
Record Response := mkResponse {
  ok : bool;
  status : Z;
  text : Caught + string;
  json : Caught + option string
}.

(** How the [fetch] promise settles. *)
Inductive FetchOutcome :=
| Rejected (e : Caught)
| Resolved (response : Response).

(** The body sent with the request. *)
Record Request := mkRequest { req_model : string; req_prompt : string; req_stream : bool }.

Definition requestOf (c : State) : Request :=
  {| req_model := model c; req_prompt := input c; req_stream := false |}.

(** The [try] block up to the construction of the assistant message: either
    control reaches the [catch] clause with a value, or [data.response] is
    available. *)
Definition tryResponse (o : FetchOutcome) : Caught + string :=
  match o with
  | Rejected e => inl e
  | Resolved response =>
      if negb (ok response) then
        match text response with
        | inl e => inl e
        | inr errorData =>
            inl (ErrorObject ("API Error: " ++ toString (status response)
                              ++ " " ++ errorData))
        end
      else
        match json response with
        | inl e => inl e
        | inr None => inl (ErrorObject "No response data received from Ollama")
        | inr (Some r) =>
            if truthy r then inr r
            else inl (ErrorObject "No response data received from Ollama")
        end
  end.

(** [error instanceof Error ? error.message : 'An unknown error occurred']. *)
Definition errorMessageOf (e : Caught) : string :=
  match e with
  | ErrorObject message => message
  | OtherValue => "An unknown error occurred"
  end.

(** [handleSubmit] is a blank input away from doing anything. *)
Definition blank (c : State) : bool := negb (truthy (trim (input c))).

Definition newMessagesOf (c : State) : list Message :=
  (messages c ++ [ {| Message.role := user; Message.content := input c |} ])%list.

(** [handleSubmit], from its first line to the call of [fetch]. *)
Definition handleSubmit_begin (c : State) (t_id t_created : Z) (s : State) : State :=
  if blank c then s
  else
    let s := if noCurrentChat (currentChatId c)
             then createNewChat c t_id t_created s else s in
    let newMessages := newMessagesOf c in
    let s := setMessages newMessages s in
    let s := updateCurrentChat c newMessages s in
    let s := setInput "" s in
    let s := setIsLoading true s in
    setError None s.

(** [handleSubmit], from the settlement of [fetch] to its end. *)
Definition handleSubmit_settle (c : State) (o : FetchOutcome) (s : State) : State :=
  if blank c then s
  else
    let s :=
      match tryResponse o with
      | inr response =>
          let assistantMessage :=
            {| Message.role := assistant; Message.content := response |} in
          let updatedMessages := (newMessagesOf c ++ [assistantMessage])%list in
          let s := setMessages updatedMessages s in
          updateCurrentChat c updatedMessages s
      | inl e => setError (Some (errorMessageOf e)) s
      end in
    setIsLoading false s.

(** A whole submission with nothing else happening while the request is
    pending. *)
Definition handleSubmit (s : State) (t_id t_created : Z) (o : FetchOutcome) : State :=
  handleSubmit_settle s o (handleSubmit_begin s t_id t_created s).

(** What a call of a handler hands back to its caller. *)
Inductive Completion (A : Type) :=
| ReturnsUndefined
| Returns (a : A)
| Throws (e : Caught).
Arguments ReturnsUndefined {A}.
Arguments Returns {A} a.
Arguments Throws {A} e.

(** [selectChat] has no [return] statement and none of its steps throws. *)
Definition selectChat_completion (c : State) (chatId : string) : Completion Chat :=
  ReturnsUndefined.

(** ** Events *)

(** What can happen to the store.  The buttons, the form and the rows of
    the sidebar that belong to the latest render run its handlers; [Settle]
    is the continuation of a submission that started in a render whose state
    was [c].

    The rows of the sidebar are keyed by [chat.id].  While the ids of each
    rendered collection are pairwise different, every row on screen belongs
    to the latest render.  Once a collection with two equal ids has been
    rendered, a row of that render can stay on screen after its chat has left
    the collection, with the handlers of the render that made it:
    [SelectChatFrom c chatId] and [DeleteChatFrom c chatId] are the click
    on such a row and on its delete button, [c] being the state of the
    render the row comes from. *)
Inductive Op :=
| CreateChat (t_id t_created : Z)
| AppendAndSync (msgs : list Message)
| SelectChat (chatId : string)
| DeleteChat (chatId : string)
| SetModel (m : string)
| SetInput (v : string)
| Submit (t_id t_created : Z)
| Settle (c : State) (o : FetchOutcome)
| SelectChatFrom (c : State) (chatId : string)
| DeleteChatFrom (c : State) (chatId : string).

Definition step (s : State) (op : Op) : State :=
  match op with
  | CreateChat t_id t_created => createNewChat s t_id t_created s
  | AppendAndSync msgs => updateCurrentChat s msgs s
  | SelectChat chatId => selectChat s chatId s
  | DeleteChat chatId => deleteChat s chatId s
  | SetModel m => setModel m s
  | SetInput v => setInput v s
  | Submit t_id t_created => handleSubmit_begin s t_id t_created s
  | Settle c o => handleSubmit_settle c o s
  | SelectChatFrom c chatId => selectChat c chatId s
  | DeleteChatFrom c chatId => deleteChat c chatId s
  end.

Definition run (s : State) (ops : list Op) : State := fold_left step ops s.

(** ** Predicates on the store *)

Definition hasChat (chatId : string) (l : list Chat) : bool :=
  existsb (fun ch => (Chat.id ch =? chatId)%string) l.

(** No dangling cursor. *)
Definition cursorValid (s : State) : bool :=
  match currentChatId s with
  | None => true
  | Some i => hasChat i (chats s)
  end.

(** The chat the cursor designates. *)
Definition activeChat (s : State) : option Chat :=
  match currentChatId s with
  | None => None
  | Some i => find (fun ch => (Chat.id ch =? i)%string) (chats s)
  end.

Definition ids (l : list Chat) : list string := map Chat.id l.

(** Two equal strings in a list (two equal keys among the rows). *)
Fixpoint hasDuplicates (l : list string) : bool :=
  match l with
  | [] => false
  | x :: rest => existsb (String.eqb x) rest || hasDuplicates rest
  end.

(** The collection of [s] and of every store reached along [ops] has
    pairwise different ids. *)
Fixpoint keysDistinct (s : State) (ops : list Op) : bool :=
  negb (hasDuplicates (ids (chats s))) &&
  match ops with
  | [] => true
  | op :: rest => keysDistinct (step s op) rest
  end.

(** The sequences the sidebar allows: a click on a row of an earlier render
    needs a collection with two equal ids to have been rendered before
    ([collided]), and the row to be one of that earlier render. *)
Fixpoint rowClicksAdmitted (collided : bool) (s : State) (ops : list Op) : bool :=
  match ops with
  | [] => true
  | op :: rest =>
      match op with
      | SelectChatFrom c chatId => collided && hasChat chatId (chats c)
      | DeleteChatFrom c chatId => collided && hasChat chatId (chats c)
      | _ => true
      end
      && rowClicksAdmitted (collided || hasDuplicates (ids (chats (step s op))))
           (step s op) rest
  end.

Definition admitted (s : State) (ops : list Op) : bool :=
  rowClicksAdmitted (hasDuplicates (ids (chats s))) s ops.

(** The operations that run a handler of the latest render or the
    continuation of a submission. *)
Definition ofLatestRender (op : Op) : bool :=
  match op with
  | SelectChatFrom _ _ => false
  | DeleteChatFrom _ _ => false
  | _ => true
  end.

(** Whether the clock readings used for ids along [ops] are at least
    [bound] and strictly increase from one allocation to the next. *)
Fixpoint clockIncreasing (bound : Z) (ops : list Op) : bool :=
  match ops with
  | [] => true
  | CreateChat t_id _ :: rest => (bound <=? t_id) && clockIncreasing (t_id + 1) rest
  | Submit t_id _ :: rest => (bound <=? t_id) && clockIncreasing (t_id + 1) rest
  | _ :: rest => clockIncreasing bound rest
  end.

(** Every id of [l] that is the rendering of a clock reading renders one
    below [bound]. *)
Definition idsBelow (bound : Z) (l : list Chat) : Prop :=
  forall t, In (toString t) (ids l) -> t < bound.

(** The ways the Inference Client fails: the request is rejected, the status
    is not a success status, or a success body lacks the [response] field. *)
Inductive InferenceFails : FetchOutcome -> Prop :=
| NetworkError e : InferenceFails (Rejected e)
| BadStatus r : ok r = false -> InferenceFails (Resolved r)
| MissingResponse r : ok r = true -> json r = inr None -> InferenceFails (Resolved r).

(** ** Sample stores *)

Definition hello : Message := {| Message.role := user; Message.content := "Hello" |}.
Definition hiThere : Message := {| Message.role := assistant; Message.content := "Hi there" |}.

Definition chatA : Chat :=
  {| Chat.id := "1700000000001"; Chat.title := "Hello"; Chat.messages := [hello; hiThere];
     Chat.model := "mistral"; Chat.createdAt := 1700000000001 |}.

Definition chatB : Chat :=
  {| Chat.id := "1700000000000"; Chat.title := "New Chat"; Chat.messages := [];
     Chat.model := "llama2"; Chat.createdAt := 1700000000000 |}.

(** Two chats, the newer one active. *)
Definition twoChats : State :=
  {| chats := [chatA; chatB]; currentChatId := Some "1700000000001";
     messages := [hello; hiThere]; input := "And then?"; isLoading := false;
     model := "mistral"; error := None |}.

(** [twoChats] after two chats were created on one clock reading: the
    collection holds two chats with the id "1700000000002". *)
Definition collidedChats : State :=
  run twoChats [CreateChat 1700000000002 1700000000002;
                CreateChat 1700000000002 1700000000003].

(** The store right after start-up with nothing persisted, "Hello" typed. *)
Definition helloTyped : State := setInput "Hello" initial.

Definition okResponse (r : string) : FetchOutcome :=
  Resolved {| ok := true; status := 200; text := inr r; json := inr (Some r) |}.

Definition serverError : FetchOutcome :=
  Resolved {| ok := false; status := 500; text := inr "model not found";
              json := inl (ErrorObject "Unexpected token") |}.

(** ** Rendering of a message *)

(** The characters the pattern of [formatMessage] captures: [.,!?]. *)
Definition isPunctuation (a : ascii) : bool :=
  match N_of_ascii a with
  | 33 | 44 | 46 | 63 => true
  | _ => false
  end%N.

(** Whether a string starts with a character of the class [\s] (among the
    code units 0..255 the class is the white space of [trim]). *)
Definition followedBySpace (rest : string) : bool :=
  match rest with
  | String b _ => isWhiteSpace b
  | EmptyString => false
  end.

(** [content.replace(/([.,!?])(?!\s)/g, '$1 ')]: every match is one
    punctuation character whose successor in [content], if any, is not white
    space; it is replaced by itself and a space. *)
Fixpoint formatMessage (content : string) : string :=
  match content with
  | EmptyString => EmptyString
  | String a rest =>
      if isPunctuation a && negb (followedBySpace rest)
      then String a (String " "%char (formatMessage rest))
      else String a (formatMessage rest)
  end.

(** Every punctuation character of [s] is followed by white space. *)
Fixpoint spaced (s : string) : bool :=
  match s with
  | EmptyString => true
  | String a rest =>
      (negb (isPunctuation a) || followedBySpace rest) && spaced rest
  end.

(** The characters of [s] that are not the space character. *)
Fixpoint withoutSpaces (s : string) : string :=
  match s with
  | EmptyString => EmptyString
  | String a rest =>
      if (a =? " ")%char then withoutSpaces rest else String a (withoutSpaces rest)
  end.

Fixpoint allWhiteSpace (s : string) : bool :=
  match s with
  | EmptyString => true
  | String a rest => isWhiteSpace a && allWhiteSpace rest
  end.

(** ** Persistence *)

(** The item ['ollama-chats'] of [localStorage] is an [option string]
    ([None]: [getItem] gives [null]).  [JSON.stringify] and [JSON.parse] are
    functions of the host: [JSON_parse] either throws or gives the array of
    chat records the text denotes. *)
Section Storage.

Variable JSON_stringify : list Chat -> string.
Variable JSON_parse : string -> Caught + list Chat.

(** The first effect: read the item and, when it holds something, install
    the parsed collection and put the cursor on its first chat. *)
Definition loadEffect (stored : option string) (s : State) : Caught + State :=
  match stored with
  | None => inr s
  | Some savedChats =>
      if truthy savedChats then
        match JSON_parse savedChats with
        | inl e => inl e
        | inr parsedChats =>
            let s := setChats (fun _ => parsedChats) s in
            match parsedChats with
            | mostRecentChat :: _ =>
                let s := setCurrentChatId (Some (Chat.id mostRecentChat)) s in
                let s := setMessages (Chat.messages mostRecentChat) s in
                inr (setModel (Chat.model mostRecentChat) s)
            | [] => inr s
            end
        end
      else inr s
  end.

(** The second effect, run by a render whose collection is [chats c]. *)
Definition saveEffect (c : State) (stored : option string) : option string :=
  Some (JSON_stringify (chats c)).

(** Whether the first effect calls [setChats]. *)
Definition loadSetsChats (stored : option string) : bool :=
  match stored with
  | None => false
  | Some savedChats => truthy savedChats
  end.

(** Mounting the component, each effect run once per render that calls for
    it: the first render has the state [initial]; its two effects run in
    order, and the render that follows a [setChats] runs the second effect
    again.  The result is the store and the item, or what [JSON.parse]
    threw. *)
Definition mount (stored : option string) : Caught + (State * option string) :=
  match loadEffect stored initial with
  | inl e => inl e
  | inr s =>
      let written := saveEffect initial stored in
      inr (s, if loadSetsChats stored then saveEffect s written else written)
  end.

(** Whether the handler behind [op], run in state [s], calls [setChats]. *)
Definition setsChats (s : State) (op : Op) : bool :=
  match op with
  | CreateChat _ _ => true
  | AppendAndSync _ => negb (noCurrentChat (currentChatId s))
  | SelectChat _ => false
  | DeleteChat _ => true
  | SetModel _ => false
  | SetInput _ => false
  | Submit _ _ => negb (blank s)
  | Settle c o =>
      negb (blank c) &&
      match tryResponse o with
      | inr _ => negb (noCurrentChat (currentChatId c))
      | inl _ => false
      end
  | SelectChatFrom _ _ => false
  | DeleteChatFrom _ _ => true
  end.

(** An operation followed by the renders and effects it causes. *)
Definition stepStored (p : State * option string) (op : Op) : State * option string :=
  let s' := step (fst p) op in
  (s', if setsChats (fst p) op then saveEffect s' (snd p) else snd p).

Definition runStored (p : State * option string) (ops : list Op) : State * option string :=
  fold_left stepStored ops p.

End Storage.

(** ** Sessions without overlap *)

(** What the user does when nothing happens while a request is pending: a
    submission is then one step, from the click to the settlement.
    [PickFrom c] and [RemoveFrom c] are the clicks on a row that an earlier
    render, of state [c], left on screen. *)
Inductive Action :=
| NewChat (t_id t_created : Z)
| Pick (chatId : string)
| Remove (chatId : string)
| ChooseModel (m : string)
| Type_ (v : string)
| Send (t_id t_created : Z) (o : FetchOutcome)
| PickFrom (c : State) (chatId : string)
| RemoveFrom (c : State) (chatId : string).

Definition act (s : State) (a : Action) : State :=
  match a with
  | NewChat t_id t_created => createNewChat s t_id t_created s
  | Pick chatId => selectChat s chatId s
  | Remove chatId => deleteChat s chatId s
  | ChooseModel m => setModel m s
  | Type_ v => setInput v s
  | Send t_id t_created o => handleSubmit s t_id t_created o
  | PickFrom c chatId => selectChat c chatId s
  | RemoveFrom c chatId => deleteChat c chatId s
  end.

Definition perform (s : State) (l : list Action) : State := fold_left act l s.

(** Every non-blank submission of [l] starts with a chat active. *)
Fixpoint sendsWithChat (s : State) (l : list Action) : bool :=
  match l with
  | [] => true
  | a :: rest =>
      match a with
      | Send _ _ _ => blank s || negb (noCurrentChat (currentChatId s))
      | _ => true
      end && sendsWithChat (act s a) rest
  end.

(** The collection of [s] and of every store reached along the session has
    pairwise different ids. *)
Fixpoint sessionKeysDistinct (s : State) (l : list Action) : bool :=
  negb (hasDuplicates (ids (chats s))) &&
  match l with
  | [] => true
  | a :: rest => sessionKeysDistinct (act s a) rest
  end.

(** The sessions the sidebar allows (see [rowClicksAdmitted]). *)
Fixpoint sessionAdmitted (collided : bool) (s : State) (l : list Action) : bool :=
  match l with
  | [] => true
  | a :: rest =>
      match a with
      | PickFrom c chatId => collided && hasChat chatId (chats c)
      | RemoveFrom c chatId => collided && hasChat chatId (chats c)
      | _ => true
      end
      && sessionAdmitted (collided || hasDuplicates (ids (chats (act s a))))
           (act s a) rest
  end.

(** The loaded log is the log of the active chat, and empty without one. *)
Definition cursorLoaded (s : State) : Prop :=
  match currentChatId s with
  | None => messages s = []
  | Some _ => exists chat, activeChat s = Some chat /\ messages s = Chat.messages chat
  end.

(** A stand-in for the two host functions on one stored text. *)
Definition sampleStringify (l : list Chat) : string :=
  "[" ++ String.concat "," (ids l) ++ "]".

Definition sampleParse (text : string) : Caught + list Chat :=
  if (text =? "[1700000000001,1700000000000]")%string then inr [chatA; chatB]
  else inl (ErrorObject "Unexpected token").

(** ** Order of the collection *)

(** The creation times given to new chats along [ops] are at least [bound]
    and never decrease. *)
Fixpoint createdNondecreasing (bound : Z) (ops : list Op) : bool :=
  match ops with
  | [] => true
  | CreateChat _ t_created :: rest =>
      (bound <=? t_created) && createdNondecreasing t_created rest
  | Submit _ t_created :: rest =>
      (bound <=? t_created) && createdNondecreasing t_created rest
  | _ :: rest => createdNondecreasing bound rest
  end.

(** Newest first: creation times do not increase along the list, and none
    exceeds [bound]. *)
Fixpoint newestFirst (bound : Z) (l : list Chat) : bool :=
  match l with
  | [] => true
  | chat :: rest => (Chat.createdAt chat <=? bound) && newestFirst (Chat.createdAt chat) rest
  end.

(** ** Basic facts *)

Lemma toString_inj (a b : Z) : toString a = toString b -> a = b.
Proof.
  unfold toString. intros E.
  assert (Some (Z.to_int a) = Some (Z.to_int b)) as S.
  { rewrite <- (NilEmpty.isi (Z.to_int a)), <- (NilEmpty.isi (Z.to_int b)).
    now rewrite E. }
  injection S as S.
  rewrite <- (DecimalZ.of_to a), <- (DecimalZ.of_to b). now rewrite S.
Qed.

Lemma toString_truthy (n : Z) : truthy (toString n) = true.
Proof.
  unfold truthy. destruct (String.eqb_spec (toString n) "") as [E|]; [|reflexivity].
  exfalso.
  assert (NilEmpty.int_of_string (toString n) = Some (Z.to_int n)) as I
    by apply NilEmpty.isi.
  rewrite E in I. cbn in I. injection I as I.
  assert (n = 0) as Z0 by (rewrite <- (DecimalZ.of_to n), <- I; reflexivity).
  rewrite Z0 in I. discriminate I.
Qed.

Lemma hasChat_ids (i : string) (l : list Chat) :
  hasChat i l = existsb (fun x => (x =? i)%string) (ids l).
Proof.
  unfold hasChat, ids. induction l as [|ch l IH]; cbn; [reflexivity | now rewrite IH].
Qed.

Lemma hasChat_In (i : string) (l : list Chat) :
  hasChat i l = true <-> In i (ids l).
Proof.
  rewrite hasChat_ids, existsb_exists. split.
  - intros [x [Hx E]]. apply String.eqb_eq in E. now subst.
  - intros H. exists i. split; [assumption | apply String.eqb_refl].
Qed.

Lemma cursorValid_ext (s s' : State) :
  currentChatId s' = currentChatId s ->
  ids (chats s') = ids (chats s) ->
  cursorValid s' = cursorValid s.
Proof.
  unfold cursorValid. intros -> E.
  destruct (currentChatId s); [|reflexivity].
  now rewrite !hasChat_ids, E.
Qed.

Lemma updateChat_id (c : State) (msgs : list Message) (chat : Chat) :
  Chat.id (updateChat c msgs chat) = Chat.id chat.
Proof. unfold updateChat. now destruct isCurrent. Qed.

Lemma ids_updateChat (c : State) (msgs : list Message) (l : list Chat) :
  ids (map (updateChat c msgs) l) = ids l.
Proof.
  unfold ids. rewrite map_map. apply map_ext. intros; apply updateChat_id.
Qed.

Lemma updateCurrentChat_ids (c : State) (msgs : list Message) (s : State) :
  ids (chats (updateCurrentChat c msgs s)) = ids (chats s).
Proof.
  unfold updateCurrentChat. destruct noCurrentChat; cbn; [reflexivity|].
  apply ids_updateChat.
Qed.

Lemma updateCurrentChat_cursor (c : State) (msgs : list Message) (s : State) :
  let s' := updateCurrentChat c msgs s in
  currentChatId s' = currentChatId s /\ messages s' = messages s /\
  model s' = model s /\ input s' = input s /\ isLoading s' = isLoading s /\
  error s' = error s.
Proof. unfold updateCurrentChat. destruct noCurrentChat; cbn; auto 7. Qed.

(** The first chat that survives the removal of [chatId] is the chat that a
    lookup of its id in the unfiltered collection finds. *)
Lemma find_first_remaining (chatId : string) (l : list Chat) (first : Chat) rest :
  filter (fun chat => negb (Chat.id chat =? chatId)%string) l = first :: rest ->
  find (fun ch => (Chat.id ch =? Chat.id first)%string) l = Some first.
Proof.
  induction l as [|a l IH]; cbn; [discriminate|].
  destruct (String.eqb_spec (Chat.id a) chatId) as [Ea|Na]; cbn.
  - intros F. specialize (IH F).
    assert (In first (filter (fun chat => negb (Chat.id chat =? chatId)%string) l)) as M
      by (rewrite F; now left).
    apply filter_In in M as [_ K]. apply negb_true_iff, String.eqb_neq in K.
    destruct (String.eqb_spec (Chat.id a) (Chat.id first)); [congruence | exact IH].
  - intros [= -> _]. now rewrite String.eqb_refl.
Qed.

Lemma ids_filter_keep (chatId i : string) (l : list Chat) :
  i <> chatId ->
  hasChat i (filter (fun chat => negb (Chat.id chat =? chatId)%string) l) = hasChat i l.
Proof.
  intros N. unfold hasChat. induction l as [|a l IH]; cbn; [reflexivity|].
  destruct (String.eqb_spec (Chat.id a) chatId) as [E|E]; cbn; rewrite IH.
  - destruct (String.eqb_spec (Chat.id a) i); [congruence | reflexivity].
  - reflexivity.
Qed.

Lemma createNewChat_valid (c : State) (t_id t_created : Z) (s : State) :
  cursorValid (createNewChat c t_id t_created s) = true.
Proof. unfold cursorValid; cbn. now rewrite String.eqb_refl. Qed.

Lemma selectChat_valid (s : State) (chatId : string) :
  cursorValid s = true -> cursorValid (selectChat s chatId s) = true.
Proof.
  intros V. unfold selectChat.
  destruct (find _ (chats s)) as [chat|] eqn:F; [|exact V].
  apply find_some in F as [M E]. apply String.eqb_eq in E.
  unfold cursorValid; cbn. apply hasChat_In. subst chatId. now apply in_map.
Qed.

Lemma deleteChat_valid (s : State) (chatId : string) :
  cursorValid s = true -> cursorValid (deleteChat s chatId s) = true.
Proof.
  intros V. unfold deleteChat.
  destruct (isCurrent (currentChatId s) chatId) eqn:C.
  - destruct (filter _ (chats s)) as [|first rest] eqn:F; [reflexivity|].
    unfold selectChat. rewrite (find_first_remaining _ _ _ _ F).
    unfold cursorValid; cbn. rewrite F; cbn. now rewrite String.eqb_refl.
  - unfold cursorValid in *. cbv zeta. cbn [setChats currentChatId chats].
    destruct (currentChatId s) as [i|]; [|reflexivity].
    cbn in C. apply String.eqb_neq in C. now rewrite ids_filter_keep.
Qed.

Lemma handleSubmit_begin_valid (c : State) (t_id t_created : Z) (s : State) :
  cursorValid s = true -> cursorValid (handleSubmit_begin c t_id t_created s) = true.
Proof.
  intros V. unfold handleSubmit_begin. destruct (blank c); [exact V|].
  set (s1 := if noCurrentChat (currentChatId c) then _ else s).
  assert (cursorValid s1 = true) as V1
    by (subst s1; destruct noCurrentChat; [apply createNewChat_valid | exact V]).
  rewrite <- V1. apply cursorValid_ext; cbn.
  - apply (updateCurrentChat_cursor c _ (setMessages _ s1)).
  - now rewrite updateCurrentChat_ids.
Qed.

Lemma handleSubmit_settle_valid (c : State) (o : FetchOutcome) (s : State) :
  cursorValid s = true -> cursorValid (handleSubmit_settle c o s) = true.
Proof.
  intros V. unfold handleSubmit_settle. destruct (blank c); [exact V|].
  rewrite <- V. destruct (tryResponse o); apply cursorValid_ext; cbn; try reflexivity.
  - apply (updateCurrentChat_cursor c _ (setMessages _ s)).
  - now rewrite updateCurrentChat_ids.
Qed.

Lemma step_valid (s : State) (op : Op) :
  ofLatestRender op = true ->
  cursorValid s = true -> cursorValid (step s op) = true.
Proof.
  intros L V. destruct op; cbn [step]; try discriminate L.
  - apply createNewChat_valid.
  - rewrite <- V. apply cursorValid_ext;
      [apply updateCurrentChat_cursor | apply updateCurrentChat_ids].
  - now apply selectChat_valid.
  - now apply deleteChat_valid.
  - exact V.
  - exact V.
  - now apply handleSubmit_begin_valid.
  - now apply handleSubmit_settle_valid.
Qed.

Lemma keysDistinct_here (s : State) (ops : list Op) :
  keysDistinct s ops = true -> hasDuplicates (ids (chats s)) = false.
Proof.
  destruct ops; cbn [keysDistinct]; intros K; apply andb_true_iff in K as [K _];
    now apply negb_true_iff in K.
Qed.

(** While the ids stay pairwise different, every admitted click is on a row
    of the latest render. *)
Lemma distinct_keys_rows_current (ops : list Op) : forall s,
  keysDistinct s ops = true ->
  rowClicksAdmitted false s ops = true ->
  forallb ofLatestRender ops = true.
Proof.
  induction ops as [|op ops IH]; intros s K A; [reflexivity|].
  cbn [keysDistinct] in K. apply andb_true_iff in K as [_ K].
  cbn [rowClicksAdmitted] in A. apply andb_true_iff in A as [A R].
  rewrite (keysDistinct_here _ _ K) in R. cbn [orb] in R.
  cbn [forallb]. apply andb_true_iff. split; [|exact (IH _ K R)].
  destruct op; try reflexivity; discriminate A.
Qed.

Lemma run_valid (ops : list Op) : forall s,
  forallb ofLatestRender ops = true ->
  cursorValid s = true -> cursorValid (run s ops) = true.
Proof.
  induction ops as [|op ops IH]; intros s L V; [exact V|].
  cbn [forallb] in L. apply andb_true_iff in L as [L R].
  cbn [run fold_left]. apply (IH (step s op) R). now apply step_valid.
Qed.

(** ** The cursor and the rows of the sidebar *)

(** C1 (as stated, refuted). From [twoChats], whose cursor is valid, two
    chats are created on the clock reading 1700000000002 and the id they
    share is deleted: both leave the collection, but the sidebar has kept a
    row of the render before the deletion.  A click on that row runs
    [selectChat] of that render, which finds the chat in the collection the
    render held, and the active id becomes "1700000000002", which no chat of
    the Collection carries. *)
Lemma stale_row_leaves_cursor_dangling :
  let ops := [CreateChat 1700000000002 1700000000002;
              CreateChat 1700000000002 1700000000003;
              DeleteChat "1700000000002";
              SelectChatFrom collidedChats "1700000000002"] in
  cursorValid twoChats = true /\
  admitted twoChats ops = true /\
  ids (chats (run twoChats ops)) = ["1700000000001"; "1700000000000"] /\
  currentChatId (run twoChats ops) = Some "1700000000002" /\
  ~ (exists chat, In chat (chats (run twoChats ops)) /\ Chat.id chat = "1700000000002").
Proof.
  cbv zeta. repeat split.
  intros [chat [M E]]. apply (in_map Chat.id) in M. rewrite E in M.
  destruct M as [D | [D | []]]; discriminate D.
Qed.

(** C1 (amended). Starting from a store whose cursor is valid, every
    sequence of [create_chat], [append_and_sync], [select_chat] and
    [delete_chat] (and also of model changes, typing, submissions and
    settlements of pending requests, whatever render they started in) along
    which the ids of the Collection stay pairwise different leaves a store
    where the active chat id, when not none, is the id of a chat of the
    Collection. *)
Theorem cursor_never_dangles_while_ids_distinct (s : State) (ops : list Op) :
  cursorValid s = true ->
  keysDistinct s ops = true ->
  admitted s ops = true ->
  match currentChatId (run s ops) with
  | None => True
  | Some i => exists chat, In chat (chats (run s ops)) /\ Chat.id chat = i
  end.
Proof.
  intros V K A. unfold admitted in A. rewrite (keysDistinct_here s ops K) in A.
  pose proof (run_valid ops s (distinct_keys_rows_current ops s K A) V) as R.
  unfold cursorValid in R. destruct (currentChatId (run s ops)) as [i|]; [|exact I].
  apply hasChat_In, in_map_iff in R as [chat [E M]]. now exists chat.
Qed.

Lemma cursor_never_dangles_while_ids_distinct_witness :
  cursorValid twoChats = true /\
  keysDistinct twoChats [DeleteChat "1700000000001"; CreateChat 5 6;
                         SelectChat "1700000000000"; AppendAndSync [hello]] = true /\
  admitted twoChats [DeleteChat "1700000000001"; CreateChat 5 6;
                     SelectChat "1700000000000"; AppendAndSync [hello]] = true /\
  match currentChatId (run twoChats [DeleteChat "1700000000001"; CreateChat 5 6;
                                     SelectChat "1700000000000"; AppendAndSync [hello]]) with
  | None => True
  | Some i => exists chat,
      In chat (chats (run twoChats [DeleteChat "1700000000001"; CreateChat 5 6;
                                    SelectChat "1700000000000"; AppendAndSync [hello]]))
      /\ Chat.id chat = i
  end.
Proof.
  split; [reflexivity|]. split; [reflexivity|]. split; [reflexivity|].
  apply (cursor_never_dangles_while_ids_distinct twoChats
           [DeleteChat "1700000000001"; CreateChat 5 6;
            SelectChat "1700000000000"; AppendAndSync [hello]]);
    reflexivity.
Defined.

(** ** Submitting with and without an active chat *)

Lemma find_updateChat (c : State) (msgs : list Message) (i : string) (l : list Chat) :
  find (fun ch => (Chat.id ch =? i)%string) (map (updateChat c msgs) l)
  = option_map (updateChat c msgs) (find (fun ch => (Chat.id ch =? i)%string) l).
Proof.
  induction l as [|a l IH]; cbn; [reflexivity|].
  rewrite updateChat_id. now destruct (Chat.id a =? i)%string.
Qed.

(** With a chat active in the render of the submission, the part before the
    request writes the extended log into that chat. *)
Lemma handleSubmit_begin_active (s : State) (t_id t_created : Z) :
  blank s = false ->
  noCurrentChat (currentChatId s) = false ->
  handleSubmit_begin s t_id t_created s
  = {| chats := map (updateChat s (newMessagesOf s)) (chats s);
       currentChatId := currentChatId s;
       messages := newMessagesOf s;
       input := "";
       isLoading := true;
       model := model s;
       error := None |}.
Proof.
  intros B A. unfold handleSubmit_begin, updateCurrentChat. now rewrite B, A.
Qed.

(** Without one, the new chat enters the collection with an empty log and
    the extended log only reaches the cursor. *)
Lemma handleSubmit_begin_fresh (s : State) (t_id t_created : Z) :
  blank s = false ->
  noCurrentChat (currentChatId s) = true ->
  handleSubmit_begin s t_id t_created s
  = {| chats := {| Chat.id := toString t_id; Chat.title := "New Chat";
                   Chat.messages := []; Chat.model := model s;
                   Chat.createdAt := t_created |} :: chats s;
       currentChatId := Some (toString t_id);
       messages := newMessagesOf s;
       input := "";
       isLoading := true;
       model := model s;
       error := None |}.
Proof.
  intros B A. unfold handleSubmit_begin, updateCurrentChat. now rewrite B, A.
Qed.

Lemma activeChat_updated (c s : State) (msgs : list Message) (i : string) :
  currentChatId c = Some i -> currentChatId s = Some i ->
  truthy i = true -> hasChat i (chats s) = true ->
  exists old,
    activeChat s = Some old /\
    activeChat (updateCurrentChat c msgs s)
    = Some {| Chat.id := i; Chat.title := titleOf msgs; Chat.messages := msgs;
              Chat.model := model c; Chat.createdAt := Chat.createdAt old |}.
Proof.
  intros Cc Cs T H. unfold activeChat, updateCurrentChat, noCurrentChat.
  rewrite Cc, T; cbn. rewrite Cs, find_updateChat.
  destruct (find _ (chats s)) as [old|] eqn:F.
  - exists old. split; [reflexivity|]. cbn.
    apply find_some in F as [_ E]. unfold updateChat. rewrite Cc; cbn.
    rewrite String.eqb_sym, E. apply String.eqb_eq in E. now rewrite E.
  - exfalso. apply hasChat_In, in_map_iff in H as [ch [E M]].
    apply (find_none _ _ F) in M. rewrite E, String.eqb_refl in M. discriminate.
Qed.

(** C2 (the no-active-chat case, evaluated). Start-up store, "Hello" typed,
    submitted at clock reading 1700000000000: a chat is created and becomes
    active, the cursor's log holds the user's message, but the chat recorded
    in the Collection keeps an empty log and the title "New Chat"; no
    settlement of the request changes the Collection afterwards. *)
Theorem first_submission_misses_collection :
  let s := handleSubmit_begin helloTyped 1700000000000 1700000000000 helloTyped in
  currentChatId s = Some "1700000000000" /\
  messages s = [hello] /\
  activeChat s = Some {| Chat.id := "1700000000000"; Chat.title := "New Chat";
                         Chat.messages := []; Chat.model := "llama3.2:latest";
                         Chat.createdAt := 1700000000000 |} /\
  (forall o, chats (handleSubmit_settle helloTyped o s) = chats s) /\
  activeChat (handleSubmit helloTyped 1700000000000 1700000000000 (okResponse "Hi there"))
  = activeChat s.
Proof.
  cbv zeta. repeat split; try reflexivity.
  intros o. unfold handleSubmit_settle. cbn. now destruct (tryResponse o).
Qed.

(** ** Title derivation *)

Lemma append_empty (s : string) : (s ++ "")%string = s.
Proof. induction s as [|a s IH]; cbn; [reflexivity | now rewrite IH]. Qed.

Lemma length_append (s1 s2 : string) :
  String.length (s1 ++ s2) = (String.length s1 + String.length s2)%nat.
Proof. induction s1 as [|a s1 IH]; cbn; [reflexivity | now rewrite IH]. Qed.

Lemma substring_prefix (k : nat) (s : string) :
  (k <= String.length s)%nat ->
  exists rest, s = (substring 0 k s ++ rest)%string
               /\ String.length (substring 0 k s) = k.
Proof.
  revert s. induction k as [|k IH]; intros s L.
  - exists s. now destruct s.
  - destruct s as [|a s]; cbn in L; [lia|].
    destruct (IH s) as [rest [E K]]; [lia|].
    exists rest. cbn. split; [now rewrite <- E | now rewrite K].
Qed.

Lemma substring_whole (s : string) : substring 0 (String.length s) s = s.
Proof.
  destruct (substring_prefix (String.length s) s) as [rest [E K]]; [lia|].
  assert (String.length rest = 0%nat) as R.
  { apply (f_equal String.length) in E. rewrite length_append, K in E. lia. }
  destruct rest; [|discriminate]. now rewrite append_empty in E.
Qed.

Lemma slice_from_start (s : string) (n : Z) :
  0 <= n ->
  slice s 0 n = substring 0 (Nat.min (Z.to_nat n) (String.length s)) s.
Proof.
  intros N. unfold slice. cbn [Z.ltb Z.compare].
  destruct (n <? 0) eqn:L; [apply Z.ltb_lt in L; lia|].
  f_equal; lia.
Qed.

Lemma find_first_user (before : list Message) (m : Message) (after : list Message) :
  (forall x, In x before -> Message.role x <> user) ->
  Message.role m = user ->
  find (fun x => Role_eqb (Message.role x) user) (before ++ m :: after) = Some m.
Proof.
  intros NB U. induction before as [|b before IH]; cbn.
  - now rewrite U.
  - destruct (Message.role b) eqn:R.
    + exfalso. apply (NB b); [now left | assumption].
    + cbn. apply IH. intros x Hx. apply NB. now right.
Qed.

(** C3. The title recomputed by [append_and_sync] from a log: "New Chat"
    when no message has role user; for the first user message, its content
    unchanged when that has at most 30 characters, and its first 30
    characters followed by "..." when it has more.  Every chat the call
    rewrites carries that title. *)
Theorem title_derivation (msgs : list Message) :
  ((forall m, In m msgs -> Message.role m <> user) -> titleOf msgs = "New Chat")
  /\
  (forall before m after,
      msgs = (before ++ m :: after)%list ->
      (forall x, In x before -> Message.role x <> user) ->
      Message.role m = user ->
      ((String.length (Message.content m) <= 30)%nat ->
         titleOf msgs = Message.content m)
      /\
      ((30 < String.length (Message.content m))%nat ->
         exists first30 rest,
           Message.content m = (first30 ++ rest)%string /\
           String.length first30 = 30%nat /\
           titleOf msgs = (first30 ++ "...")%string))
  /\
  (forall c s chat,
      noCurrentChat (currentChatId c) = false ->
      In chat (chats s) ->
      isCurrent (currentChatId c) (Chat.id chat) = true ->
      In {| Chat.id := Chat.id chat; Chat.title := titleOf msgs;
            Chat.messages := msgs; Chat.model := model c;
            Chat.createdAt := Chat.createdAt chat |}
         (chats (updateCurrentChat c msgs s))).
Proof.
  split; [|split].
  - intros NU. unfold titleOf.
    destruct (find _ msgs) as [m|] eqn:F; [|reflexivity].
    apply find_some in F as [M R]. specialize (NU m M).
    destruct (Message.role m); [congruence | discriminate].
  - intros before m after -> NB U. unfold titleOf.
    rewrite (find_first_user before m after NB U).
    rewrite slice_from_start by lia. split; intros L.
    + replace (Nat.min (Z.to_nat 30) (String.length (Message.content m)))
        with (String.length (Message.content m)) by lia.
      rewrite substring_whole.
      destruct (30 <? Z.of_nat (String.length (Message.content m))) eqn:Q;
        [apply Z.ltb_lt in Q; lia | apply append_empty].
    + replace (Nat.min (Z.to_nat 30) (String.length (Message.content m)))
        with 30%nat by lia.
      destruct (substring_prefix 30 (Message.content m)) as [rest [E K]]; [lia|].
      exists (substring 0 30 (Message.content m)), rest. repeat split; try assumption.
      destruct (30 <? Z.of_nat (String.length (Message.content m))) eqn:Q;
        [reflexivity | apply Z.ltb_ge in Q; lia].
  - intros c s chat A M C. unfold updateCurrentChat. rewrite A. cbn.
    apply in_map_iff. exists chat. split; [|assumption].
    unfold updateChat. now rewrite C.
Qed.

(** The scenario of a 40-character first message. *)
Example title_of_forty_a :
  titleOf [ {| Message.role := assistant; Message.content := "Welcome" |};
            {| Message.role := user;
               Message.content := "aaaaaaaaaaaaaaaaaaaaaaaaaaaaaaaaaaaaaaaa" |};
            {| Message.role := user; Message.content := "second" |} ]
  = "aaaaaaaaaaaaaaaaaaaaaaaaaaaaaa...".
Proof. reflexivity. Qed.

(** ** Deleting a chat *)


Example delete_active_loads_next :
  deleteChat twoChats "1700000000001" twoChats
  = {| chats := [chatB]; currentChatId := Some "1700000000000"; messages := [];
       input := "And then?"; isLoading := false; model := "llama2"; error := None |}.
Proof. reflexivity. Qed.

Example delete_other_keeps_cursor :
  deleteChat twoChats "1700000000000" twoChats
  = {| chats := [chatA]; currentChatId := Some "1700000000001";
       messages := [hello; hiThere]; input := "And then?"; isLoading := false;
       model := "mistral"; error := None |}.
Proof. reflexivity. Qed.

(** ** Identifiers *)

Lemma selectChat_chats (c : State) (chatId : string) (s : State) :
  chats (selectChat c chatId s) = chats s.
Proof. unfold selectChat. now destruct (find _ (chats c)). Qed.

Lemma deleteChat_chats (c : State) (chatId : string) (s : State) :
  chats (deleteChat c chatId s)
  = filter (fun chat => negb (Chat.id chat =? chatId)%string) (chats s).
Proof.
  unfold deleteChat. destruct isCurrent; [|reflexivity].
  destruct (filter _ (chats c)); [reflexivity | now rewrite selectChat_chats].
Qed.

Lemma ids_filter (p : string -> bool) (l : list Chat) :
  ids (filter (fun chat => p (Chat.id chat)) l) = filter p (ids l).
Proof.
  unfold ids. induction l as [|a l IH]; cbn; [reflexivity|].
  destruct (p (Chat.id a)); cbn; now rewrite IH.
Qed.

Lemma handleSubmit_begin_ids (c : State) (t_id t_created : Z) (s : State) :
  ids (chats (handleSubmit_begin c t_id t_created s)) = ids (chats s) \/
  ids (chats (handleSubmit_begin c t_id t_created s)) = toString t_id :: ids (chats s).
Proof.
  unfold handleSubmit_begin. destruct (blank c); [now left|].
  cbn [chats setError setIsLoading setInput]. rewrite updateCurrentChat_ids.
  destruct noCurrentChat; [right | left]; reflexivity.
Qed.

Lemma handleSubmit_settle_ids (c : State) (o : FetchOutcome) (s : State) :
  ids (chats (handleSubmit_settle c o s)) = ids (chats s).
Proof.
  unfold handleSubmit_settle. destruct (blank c); [reflexivity|].
  destruct (tryResponse o); cbn [chats setError setIsLoading]; [reflexivity|].
  now rewrite updateCurrentChat_ids.
Qed.

Section IncreasingClock.

Variable bound : Z.
Variable l : list Chat.
Hypothesis unique : NoDup (ids l).
Hypothesis below : idsBelow bound l.

Lemma fresh_reading (t : Z) : bound <= t -> ~ In (toString t) (ids l).
Proof. intros B M. apply below in M. lia. Qed.

Lemma unique_cons (t : Z) : bound <= t -> NoDup (toString t :: ids l).
Proof. intros B. constructor; [now apply fresh_reading | exact unique]. Qed.

Lemma below_cons (t : Z) (l' : list Chat) :
  bound <= t -> ids l' = toString t :: ids l -> idsBelow (t + 1) l'.
Proof.
  intros B E u M. rewrite E in M. destruct M as [M|M].
  - apply toString_inj in M. lia.
  - apply below in M. lia.
Qed.

Lemma below_same (b' : Z) (l' : list Chat) :
  bound <= b' -> incl (ids l') (ids l) -> idsBelow b' l'.
Proof. intros B S u M. apply S, below in M. lia. Qed.

End IncreasingClock.

Lemma step_unique (bound : Z) (s : State) (op : Op) (rest : list Op) :
  NoDup (ids (chats s)) -> idsBelow bound (chats s) ->
  clockIncreasing bound (op :: rest) = true ->
  exists bound',
    NoDup (ids (chats (step s op))) /\ idsBelow bound' (chats (step s op)) /\
    clockIncreasing bound' rest = true.
Proof.
  intros U B C.
  assert (forall s', ids (chats s') = ids (chats s) ->
            clockIncreasing bound rest = true ->
            exists bound', NoDup (ids (chats s')) /\ idsBelow bound' (chats s') /\
                           clockIncreasing bound' rest = true) as same.
  { intros s' E R. exists bound. rewrite E. repeat split; try assumption.
    apply (below_same bound (chats s) B); [lia | rewrite E; apply incl_refl]. }
  destruct op; cbn [clockIncreasing] in C; cbn [step].
  - apply andb_true_iff in C as [L R]. apply Z.leb_le in L.
    exists (t_id + 1). repeat split; try assumption.
    + apply (unique_cons bound (chats s) U B t_id L).
    + apply (below_cons bound (chats s) B t_id _ L). reflexivity.
  - apply same; [apply updateCurrentChat_ids | exact C].
  - apply same; [now rewrite selectChat_chats | exact C].
  - exists bound. rewrite deleteChat_chats.
    rewrite (ids_filter (fun i => negb (i =? chatId)%string)).
    repeat split; try assumption.
    + now apply NoDup_filter.
    + apply (below_same bound (chats s) B); [lia|].
      rewrite (ids_filter (fun i => negb (i =? chatId)%string)). apply incl_filter.
  - apply same; [reflexivity | exact C].
  - apply same; [reflexivity | exact C].
  - apply andb_true_iff in C as [L R]. apply Z.leb_le in L.
    exists (t_id + 1). split; [|split]; try assumption.
    + destruct (handleSubmit_begin_ids s t_id t_created s) as [E|E]; rewrite E;
        [exact U | apply (unique_cons bound (chats s) U B t_id L)].
    + destruct (handleSubmit_begin_ids s t_id t_created s) as [E|E].
      * apply (below_same bound (chats s) B); [lia | rewrite E; apply incl_refl].
      * apply (below_cons bound (chats s) B t_id _ L E).
  - apply same; [apply handleSubmit_settle_ids | exact C].
  - apply same; [now rewrite selectChat_chats | exact C].
  - exists bound. rewrite deleteChat_chats.
    rewrite (ids_filter (fun i => negb (i =? chatId)%string)).
    repeat split; try assumption.
    + now apply NoDup_filter.
    + apply (below_same bound (chats s) B); [lia|].
      rewrite (ids_filter (fun i => negb (i =? chatId)%string)). apply incl_filter.
Qed.

Lemma run_unique (ops rest : list Op) : forall (bound : Z) (s : State),
  NoDup (ids (chats s)) -> idsBelow bound (chats s) ->
  clockIncreasing bound (ops ++ rest) = true ->
  exists bound',
    NoDup (ids (chats (run s ops))) /\ idsBelow bound' (chats (run s ops)) /\
    clockIncreasing bound' rest = true.
Proof.
  induction ops as [|op ops IH]; intros bound s U B C.
  - now exists bound.
  - cbn [app] in C. destruct (step_unique bound s op (ops ++ rest) U B C)
      as [b1 [U1 [B1 C1]]].
    exact (IH b1 (step s op) U1 B1 C1).
Qed.

(** C5 (as stated, refuted). Two chats created at the same clock reading get
    the same id: the second allocation collides with a chat of the
    Collection and the ids are no longer unique. *)
Lemma create_chat_id_collision :
  let before := run initial [CreateChat 1700000000000 1700000000000] in
  let after := run before [CreateChat 1700000000000 1700000000000] in
  NoDup (ids (chats before)) /\
  In (toString 1700000000000) (ids (chats before)) /\
  currentChatId after = Some (toString 1700000000000) /\
  ~ NoDup (ids (chats after)).
Proof.
  cbv zeta. split; [|split; [|split]].
  - cbn. constructor; [intros [] | constructor].
  - now left.
  - reflexivity.
  - cbn. intros D. inversion D as [|x r N _]; subst. apply N. now left.
Qed.

(** C5 (amended). The id of a new chat is the decimal rendering of the clock
    reading at its creation.  Along any sequence of operations in which the
    readings used for ids are at least a bound above all readings rendered in
    the Collection and strictly increase from one allocation to the next,
    every [create_chat] allocates an id no chat of the Collection carries at
    that moment, and the ids of the Collection stay pairwise different.
    [create_chat] is total. *)
Theorem ids_unique_under_increasing_clock (s : State) (bound : Z) (ops : list Op) :
  NoDup (ids (chats s)) ->
  idsBelow bound (chats s) ->
  clockIncreasing bound ops = true ->
  NoDup (ids (chats (run s ops)))
  /\
  (forall pre t_id t_created post,
      ops = (pre ++ CreateChat t_id t_created :: post)%list ->
      let before := run s pre in
      let after := step before (CreateChat t_id t_created) in
      ~ In (toString t_id) (ids (chats before)) /\
      currentChatId after = Some (toString t_id) /\
      exists new, chats after = new :: chats before /\ Chat.id new = toString t_id).
Proof.
  intros U B C. split.
  - rewrite <- (app_nil_r ops) in C.
    destruct (run_unique ops [] bound s U B C) as [b [R _]]. exact R.
  - intros pre t_id t_created post -> before after.
    destruct (run_unique pre _ bound s U B C) as [b [_ [Bb Cb]]].
    cbn [clockIncreasing] in Cb. apply andb_true_iff in Cb as [L _].
    apply Z.leb_le in L. split; [|split].
    + intros M. apply Bb in M. lia.
    + reflexivity.
    + eexists. split; reflexivity.
Qed.

Lemma ids_unique_under_increasing_clock_witness :
  NoDup (ids (chats twoChats)) /\
  idsBelow 1700000000002 (chats twoChats) /\
  clockIncreasing 1700000000002
    [CreateChat 1700000000002 1700000000002; DeleteChat "1700000000000";
     CreateChat 1700000000003 1700000000004] = true /\
  NoDup (ids (chats (run twoChats
    [CreateChat 1700000000002 1700000000002; DeleteChat "1700000000000";
     CreateChat 1700000000003 1700000000004]))).
Proof.
  assert (NoDup (ids (chats twoChats))) as U.
  { cbn. constructor; [intros [E|[]]; discriminate E|].
    constructor; [intros [] | constructor]. }
  assert (idsBelow 1700000000002 (chats twoChats)) as B.
  { intros t [E|[E|[]]].
    - change (toString 1700000000001 = toString t) in E.
      apply toString_inj in E. lia.
    - change (toString 1700000000000 = toString t) in E.
      apply toString_inj in E. lia. }
  split; [exact U|]. split; [exact B|]. split; [reflexivity|].
  apply (ids_unique_under_increasing_clock twoChats 1700000000002
           [CreateChat 1700000000002 1700000000002; DeleteChat "1700000000000";
            CreateChat 1700000000003 1700000000004] U B).
  reflexivity.
Defined.

(** ** Selecting a chat *)



Example select_other_chat :
  selectChat twoChats "1700000000000" twoChats
  = {| chats := [chatA; chatB]; currentChatId := Some "1700000000000";
       messages := []; input := "And then?"; isLoading := false;
       model := "llama2"; error := None |}.
Proof. reflexivity. Qed.

(** ** A submission from start to end *)

Lemma activeChat_ext (s s' : State) :
  chats s' = chats s -> currentChatId s' = currentChatId s ->
  activeChat s' = activeChat s.
Proof. unfold activeChat. now intros -> ->. Qed.

Lemma blank_typed (v : string) (s : State) :
  blank (setInput v s) = negb (truthy (trim v)).
Proof. reflexivity. Qed.

(** C7. A chat is created while the selected model is "llama3.2:latest",
    "Hello" is typed and submitted, and the server answers with a success
    status and the body [{response: "Hi there"}]: the assistant message is
    appended after the user's, the active chat's log in the Collection and
    the loaded log are exactly [user "Hello"; assistant "Hi there"], and the
    active chat's title is "Hello". *)
Theorem hello_scenario (s0 : State) (t1 t2 t3 t4 : Z) (r : Response) :
  model s0 = "llama3.2:latest" ->
  ok r = true ->
  json r = inr (Some "Hi there") ->
  let s2 := run s0 [CreateChat t1 t2; SetInput "Hello"] in
  let s3 := step s2 (Submit t3 t4) in
  let s4 := step s3 (Settle s2 (Resolved r)) in
  messages s3 = [hello] /\
  messages s4 = (messages s3 ++ [hiThere])%list /\
  activeChat s4
  = Some {| Chat.id := toString t1; Chat.title := "Hello";
            Chat.messages := [hello; hiThere];
            Chat.model := "llama3.2:latest"; Chat.createdAt := t2 |} /\
  error s4 = None /\ isLoading s4 = false.
Proof.
  intros M K J s2 s3 s4.
  assert (blank s2 = false) as B by reflexivity.
  assert (noCurrentChat (currentChatId s2) = false) as A
    by (cbn; now rewrite toString_truthy).
  assert (s3 = handleSubmit_begin s2 t3 t4 s2) as E3 by reflexivity.
  rewrite (handleSubmit_begin_active s2 t3 t4 B A) in E3.
  assert (tryResponse (Resolved r) = inr "Hi there") as T
    by (cbn; now rewrite K, J).
  subst s4. cbn [step]. unfold handleSubmit_settle. rewrite B, T.
  unfold updateCurrentChat. rewrite A. rewrite E3.
  unfold activeChat, updateChat, isCurrent. cbn. rewrite !String.eqb_refl. cbn.
  now rewrite M.
Qed.

Lemma hello_scenario_witness :
  model initial = "llama3.2:latest" /\
  activeChat (run initial [CreateChat 1700000000000 1700000000001; SetInput "Hello";
                           Submit 1700000000005 1700000000005;
                           Settle (run initial [CreateChat 1700000000000 1700000000001;
                                                SetInput "Hello"])
                                  (okResponse "Hi there")])
  = Some {| Chat.id := "1700000000000"; Chat.title := "Hello";
            Chat.messages := [hello; hiThere];
            Chat.model := "llama3.2:latest"; Chat.createdAt := 1700000000001 |}.
Proof.
  split; [reflexivity|].
  apply (hello_scenario initial 1700000000000 1700000000001
           1700000000005 1700000000005
           {| ok := true; status := 200; text := inr "Hi there";
              json := inr (Some "Hi there") |});
    reflexivity.
Defined.

(** ** Failure of the inference request *)

Lemma fails_caught (o : FetchOutcome) :
  InferenceFails o -> exists e, tryResponse o = inl e.
Proof.
  intros [e | r K | r K J]; cbn.
  - now exists e.
  - rewrite K; cbn. destruct (text r) as [e|errorData]; eexists; reflexivity.
  - rewrite K, J; cbn. eexists; reflexivity.
Qed.

(** C8. When the Inference Client fails (rejected request, non-success
    status, or success body without the [response] field), the settlement of
    the submission appends no message: the loaded log is the log of the
    submission followed by the user's message, the Collection is what the
    first part of the submission left, and with a chat active at submission
    its log in the Collection is that same log.  The error slot, cleared by
    the submission, holds exactly the message of the failure, and the first
    part of the next submission clears it again. *)
Theorem inference_failure_keeps_user_message
    (s : State) (t_id t_created : Z) (o : FetchOutcome) :
  blank s = false ->
  InferenceFails o ->
  let userMessage := {| Message.role := user; Message.content := input s |} in
  let s1 := step s (Submit t_id t_created) in
  let s2 := step s1 (Settle s o) in
  messages s2 = (messages s ++ [userMessage])%list /\
  messages s2 = messages s1 /\
  chats s2 = chats s1 /\
  currentChatId s2 = currentChatId s1 /\
  (forall i, currentChatId s = Some i -> truthy i = true ->
             hasChat i (chats s) = true ->
             exists chat, activeChat s2 = Some chat /\
                          Chat.messages chat = (messages s ++ [userMessage])%list) /\
  error s1 = None /\
  (exists e, tryResponse o = inl e /\ error s2 = Some (errorMessageOf e)) /\
  isLoading s2 = false /\
  (forall v t t', truthy (trim v) = true ->
                  error (run s2 [SetInput v; Submit t t']) = None).
Proof.
  intros B F userMessage s1 s2.
  destruct (fails_caught o F) as [e T].
  assert (s2 = setIsLoading false (setError (Some (errorMessageOf e)) s1)) as E2.
  { subst s2. cbn [step]. unfold handleSubmit_settle. now rewrite B, T. }
  assert (messages s1 = newMessagesOf s /\ error s1 = None) as [M1 R1].
  { subst s1. cbn [step]. unfold handleSubmit_begin. rewrite B.
    cbn [messages error setError setIsLoading setInput].
    split; [|reflexivity].
    now destruct (updateCurrentChat_cursor s (newMessagesOf s)
                    (setMessages (newMessagesOf s)
                       (if noCurrentChat (currentChatId s)
                        then createNewChat s t_id t_created s else s)))
      as [_ [-> _]]. }
  rewrite E2. cbn [messages chats currentChatId error isLoading setIsLoading setError].
  repeat split; try assumption; try reflexivity.
  - intros i C T' H.
    assert (noCurrentChat (currentChatId s) = false) as A
      by (rewrite C; cbn; now rewrite T').
    destruct (activeChat_updated s s (newMessagesOf s) i C C T' H) as [old [_ U]].
    eexists. split.
    + rewrite <- U. apply activeChat_ext.
      * subst s1. cbn [step chats setIsLoading setError].
        rewrite (handleSubmit_begin_active s t_id t_created B A).
        unfold updateCurrentChat. now rewrite A.
      * subst s1. cbn [step currentChatId setIsLoading setError].
        rewrite (handleSubmit_begin_active s t_id t_created B A).
        unfold updateCurrentChat. now rewrite A.
    + reflexivity.
  - exists e. now split.
  - intros v t t' V. cbn [run fold_left step]. unfold handleSubmit_begin.
    rewrite blank_typed, V. reflexivity.
Qed.

Lemma inference_failure_keeps_user_message_witness :
  blank twoChats = false /\ InferenceFails serverError /\
  messages (run twoChats [Submit 1700000000009 1700000000009; Settle twoChats serverError])
  = [hello; hiThere; {| Message.role := user; Message.content := "And then?" |}] /\
  error (run twoChats [Submit 1700000000009 1700000000009; Settle twoChats serverError])
  = Some "API Error: 500 model not found".
Proof.
  assert (InferenceFails serverError) as F by (apply BadStatus; reflexivity).
  split; [reflexivity|]. split; [exact F|].
  destruct (inference_failure_keeps_user_message twoChats 1700000000009 1700000000009
              serverError eq_refl F) as [M _].
  split; [exact M | reflexivity].
Defined.

(** ** What [append_and_sync] leaves alone, and what it rewrites *)

(** C9. [append_and_sync] keeps the length and the order of the Collection:
    at every position the chat keeps its id and its creation time, and a chat
    whose id is not the active one is unchanged.  The cursor and the other
    cells of the store are not touched. *)
Theorem append_and_sync_frame (c s : State) (msgs : list Message) :
  let s' := updateCurrentChat c msgs s in
  length (chats s') = length (chats s)
  /\
  (forall n chat,
      nth_error (chats s) n = Some chat ->
      exists chat',
        nth_error (chats s') n = Some chat' /\
        Chat.id chat' = Chat.id chat /\
        Chat.createdAt chat' = Chat.createdAt chat /\
        (isCurrent (currentChatId c) (Chat.id chat) = false -> chat' = chat))
  /\
  ids (chats s') = ids (chats s)
  /\
  currentChatId s' = currentChatId s /\ messages s' = messages s /\
  model s' = model s.
Proof.
  cbv zeta. split; [|split; [|split]].
  - unfold updateCurrentChat. destruct noCurrentChat; cbn; [reflexivity|].
    apply length_map.
  - intros n chat N. unfold updateCurrentChat.
    destruct (noCurrentChat (currentChatId c)); cbn.
    + exists chat. now repeat split.
    + exists (updateChat c msgs chat). split; [now apply map_nth_error|].
      unfold updateChat. destruct isCurrent; cbn; repeat split; congruence.
  - apply updateCurrentChat_ids.
  - destruct (updateCurrentChat_cursor c msgs s) as [A [B [C _]]]. now repeat split.
Qed.

Example append_keeps_position :
  chats (updateCurrentChat (setCurrentChatId (Some "1700000000000") twoChats) [hello]
           twoChats)
  = [chatA;
     {| Chat.id := "1700000000000"; Chat.title := "Hello"; Chat.messages := [hello];
        Chat.model := "mistral"; Chat.createdAt := 1700000000000 |}].
Proof. reflexivity. Qed.

(** C10 (as stated, refuted). A message is submitted from [twoChats] while
    "mistral" is selected, "codellama" is selected while the request is
    pending, and the response is accepted: the call of [append_and_sync]
    after the response writes "mistral", the model of the render the
    submission started in, into the active chat, although the cursor's
    selected model is "codellama" by then. *)
Lemma settlement_writes_submission_model :
  let s' := run twoChats [Submit 1700000000009 1700000000009; SetModel "codellama";
                          Settle twoChats (okResponse "Sure.")] in
  model s' = "codellama" /\
  activeChat s'
  = Some {| Chat.id := "1700000000001"; Chat.title := "Hello";
            Chat.messages :=
              [hello; hiThere;
               {| Message.role := user; Message.content := "And then?" |};
               {| Message.role := assistant; Message.content := "Sure." |}];
            Chat.model := "mistral"; Chat.createdAt := 1700000000001 |}.
Proof. split; reflexivity. Qed.

(** C10 (amended). A call of [append_and_sync] with an active chat
    overwrites the stored model of every chat carrying the active id with the
    model selected in the render whose handler makes the call, whatever
    model the chat was bound to before.  For a call made from the latest
    render (directly, or by the part of a submission before the request)
    that is the cursor's selected model: after [set_model m] the active chat
    is bound to [m].  For the call after the response of a request it is the
    model that was selected when the submission started, also when another
    model has been selected since. *)
Theorem append_and_sync_writes_render_model
    (s : State) (i m v : string) (msgs : list Message) (t_id t_created : Z) :
  currentChatId s = Some i ->
  truthy i = true ->
  hasChat i (chats s) = true ->
  truthy (trim v) = true ->
  let appended := run s [SetModel m; AppendAndSync msgs] in
  let submitted := run s [SetModel m; SetInput v; Submit t_id t_created] in
  (exists old,
      activeChat s = Some old /\
      activeChat appended
      = Some {| Chat.id := i; Chat.title := titleOf msgs; Chat.messages := msgs;
                Chat.model := m; Chat.createdAt := Chat.createdAt old |})
  /\
  (forall chat, In chat (chats appended) -> Chat.id chat = i -> Chat.model chat = m)
  /\
  (exists chat, activeChat submitted = Some chat /\ Chat.model chat = m)
  /\
  (forall c u log chat,
      currentChatId c = Some i ->
      In chat (chats (updateCurrentChat c log u)) -> Chat.id chat = i ->
      Chat.model chat = model c /\ Chat.messages chat = log)
  /\
  (forall o content,
      tryResponse o = inr content ->
      let settled := run s [SetInput v; Submit t_id t_created; SetModel m;
                            Settle (setInput v s) o] in
      model settled = m /\
      exists chat, activeChat settled = Some chat /\ Chat.model chat = model s).
Proof.
  intros C T H V appended submitted. split; [|split; [|split; [|split]]].
  - destruct (activeChat_updated (setModel m s) (setModel m s) msgs i C C T H)
      as [old [O U]].
    exists old. split; [exact O | exact U].
  - intros chat M E. subst appended. cbn [run fold_left step] in M.
    unfold updateCurrentChat in M. cbn [currentChatId setModel] in M.
    rewrite C in M. cbn [noCurrentChat] in M. rewrite T in M. cbn in M.
    apply in_map_iff in M as [old [U _]]. subst chat.
    rewrite updateChat_id in E. unfold updateChat. cbn [currentChatId setModel].
    rewrite C. cbn [isCurrent]. rewrite <- E, String.eqb_refl. reflexivity.
  - set (typed := setInput v (setModel m s)).
    assert (blank typed = false) as B
      by (unfold typed; rewrite blank_typed, V; reflexivity).
    assert (noCurrentChat (currentChatId typed) = false) as A
      by (cbn; rewrite C; cbn; now rewrite T).
    destruct (activeChat_updated typed typed (newMessagesOf typed) i C C T H)
      as [old [_ U]].
    eexists. split.
    + rewrite <- U. apply activeChat_ext.
      * subst submitted. cbn [run fold_left step]. fold typed.
        rewrite (handleSubmit_begin_active typed t_id t_created B A).
        unfold updateCurrentChat. now rewrite A.
      * subst submitted. cbn [run fold_left step]. fold typed.
        rewrite (handleSubmit_begin_active typed t_id t_created B A).
        unfold updateCurrentChat. now rewrite A.
    + reflexivity.
  - intros c u log chat Cc M E. unfold updateCurrentChat in M.
    rewrite Cc in M. cbn [noCurrentChat] in M. rewrite T in M. cbn in M.
    apply in_map_iff in M as [old [U _]]. subst chat.
    rewrite updateChat_id in E. unfold updateChat. rewrite Cc. cbn [isCurrent].
    rewrite <- E, String.eqb_refl. split; reflexivity.
  - intros o content R settled.
    set (typed := setInput v s).
    assert (blank typed = false) as B
      by (unfold typed; rewrite blank_typed, V; reflexivity).
    assert (noCurrentChat (currentChatId typed) = false) as A
      by (cbn; rewrite C; cbn; now rewrite T).
    subst settled. cbn [run fold_left step]. fold typed.
    rewrite (handleSubmit_begin_active typed t_id t_created B A).
    unfold handleSubmit_settle. rewrite B, R.
    set (updated := (newMessagesOf typed ++ _)%list).
    set (s2 := setMessages updated _).
    assert (hasChat i (chats s2) = true) as H2
      by (subst s2; cbn [chats setMessages setModel];
          now rewrite hasChat_ids, ids_updateChat, <- hasChat_ids).
    destruct (activeChat_updated typed s2 updated i C C T H2) as [old [_ U]].
    destruct (updateCurrentChat_cursor typed updated s2) as [K [_ [Mo _]]].
    cbn [model setIsLoading]. split; [now rewrite Mo|].
    eexists. split.
    + rewrite <- U. now apply activeChat_ext.
    + reflexivity.
Qed.

Lemma append_and_sync_writes_render_model_witness :
  Chat.model chatA = "mistral" /\
  activeChat twoChats = Some chatA /\
  activeChat (run twoChats [SetModel "codellama"; AppendAndSync [hello]])
  = Some {| Chat.id := "1700000000001"; Chat.title := "Hello";
            Chat.messages := [hello]; Chat.model := "codellama";
            Chat.createdAt := 1700000000001 |}.
Proof.
  split; [reflexivity|]. split; [reflexivity|].
  destruct (append_and_sync_writes_render_model twoChats "1700000000001" "codellama"
              "next" [hello] 1700000000009 1700000000009
              eq_refl eq_refl eq_refl eq_refl) as [[old [O U]] _].
  rewrite U. injection O as O. now rewrite <- O.
Defined.

(** ** Rendering: [formatMessage] *)

Lemma followedBySpace_format (s : string) :
  followedBySpace (formatMessage s) = followedBySpace s.
Proof.
  destruct s as [|a rest]; cbn; [reflexivity|].
  now destruct (isPunctuation a && negb (followedBySpace rest)).
Qed.

Lemma format_spaced (s : string) : spaced (formatMessage s) = true.
Proof.
  induction s as [|a rest IH]; cbn; [reflexivity|].
  destruct (isPunctuation a) eqn:P; cbn.
  - destruct (followedBySpace rest) eqn:F; cbn.
    + rewrite followedBySpace_format, F, orb_true_r. exact IH.
    + rewrite orb_true_r. exact IH.
  - rewrite P. exact IH.
Qed.

Lemma spaced_fixed (s : string) : spaced s = true -> formatMessage s = s.
Proof.
  induction s as [|a rest IH]; cbn; [reflexivity|].
  intros H. apply andb_true_iff in H as [H R]. rewrite (IH R).
  destruct (isPunctuation a); cbn in *; [now rewrite H | reflexivity].
Qed.

(** X1. In the text [formatMessage] produces, every one of the characters
    [. , ! ?] is followed by white space; and a text is left as it is
    exactly when it already has that property. *)
Theorem formatMessage_spaces_punctuation (content : string) :
  spaced (formatMessage content) = true /\
  (formatMessage content = content <-> spaced content = true).
Proof.
  split; [apply format_spaced|]. split.
  - intros E. rewrite <- E. apply format_spaced.
  - apply spaced_fixed.
Qed.

(** X2. Formatting twice gives what formatting once gives. *)
Theorem formatMessage_idempotent (content : string) :
  formatMessage (formatMessage content) = formatMessage content.
Proof. apply spaced_fixed, format_spaced. Qed.

(** X3. [formatMessage] only inserts space characters: the other characters
    of the text come out the same and in the same order, and the text at
    most doubles in length. *)
Theorem formatMessage_only_adds_spaces (content : string) :
  withoutSpaces (formatMessage content) = withoutSpaces content /\
  (String.length content <= String.length (formatMessage content)
   <= 2 * String.length content)%nat.
Proof.
  induction content as [|a rest [IH [Lo Hi]]]; cbn; [split; [reflexivity | lia]|].
  destruct (isPunctuation a && negb (followedBySpace rest)); cbn;
    rewrite IH; (split; [reflexivity | lia]).
Qed.

Example formatMessage_sample :
  formatMessage "Hi!How are you?Fine, thanks." = "Hi! How are you? Fine, thanks. ".
Proof. reflexivity. Qed.

(** ** Blank input *)

Lemma allWhiteSpace_trimStart (s : string) :
  allWhiteSpace (trimStart s) = allWhiteSpace s.
Proof.
  induction s as [|a rest IH]; cbn; [reflexivity|].
  destruct (isWhiteSpace a) eqn:W; cbn; [exact IH | now rewrite W].
Qed.

Lemma trimEnd_empty (s : string) :
  (trimEnd s =? "")%string = allWhiteSpace s.
Proof.
  induction s as [|a rest IH]; cbn; [reflexivity|].
  destruct (trimEnd rest) as [|b kept]; cbn in IH; rewrite <- IH.
  - now destruct (isWhiteSpace a).
  - cbn. now rewrite andb_false_r.
Qed.

Lemma blank_allWhiteSpace (s : State) : blank s = allWhiteSpace (input s).
Proof.
  unfold blank, truthy, trim. rewrite negb_involutive, trimEnd_empty.
  apply allWhiteSpace_trimStart.
Qed.

(** X4. The first part of [handleSubmit] leaves the store as it is exactly
    when every character of the input is white space (the empty input
    included); a whole submission of such an input changes nothing either,
    whatever the request would have given. *)
Theorem blank_submission_ignored (s : State) (t_id t_created : Z) :
  (handleSubmit_begin s t_id t_created s = s <-> allWhiteSpace (input s) = true)
  /\
  (allWhiteSpace (input s) = true ->
   forall o, handleSubmit s t_id t_created o = s).
Proof.
  rewrite <- blank_allWhiteSpace. split; [split|].
  - intros E. destruct (blank s) eqn:B; [reflexivity|]. exfalso.
    assert (input (handleSubmit_begin s t_id t_created s) = "") as I
      by (unfold handleSubmit_begin; now rewrite B).
    rewrite E in I. rewrite blank_allWhiteSpace, I in B. discriminate B.
  - intros B. unfold handleSubmit_begin. now rewrite B.
  - intros B o. unfold handleSubmit, handleSubmit_settle, handleSubmit_begin.
    now rewrite B.
Qed.

Lemma blank_submission_ignored_witness :
  allWhiteSpace (input (setInput "   " twoChats)) = true /\
  handleSubmit (setInput "   " twoChats) 1700000000009 1700000000009
    (okResponse "Hi there")
  = setInput "   " twoChats.
Proof.
  split; [reflexivity|].
  apply (proj2 (blank_submission_ignored (setInput "   " twoChats)
                  1700000000009 1700000000009)).
  reflexivity.
Defined.

(** ** More on titles *)

Lemma find_app_found {A : Type} (f : A -> bool) (l more : list A) (x : A) :
  find f l = Some x -> find f (l ++ more) = Some x.
Proof.
  induction l as [|a l IH]; cbn; [discriminate|].
  destruct (f a); [trivial | exact IH].
Qed.

Lemma length_substring_le (k n : nat) (s : string) :
  (String.length (substring n k s) <= k)%nat.
Proof.
  revert n k. induction s as [|a s IH]; intros n k.
  - destruct n, k; cbn; lia.
  - destruct n as [|n]; [destruct k as [|k]|]; cbn.
    + lia.
    + specialize (IH 0%nat k). lia.
    + apply IH.
Qed.

(** X5. Once a log holds a user message, messages appended after it do not
    change the title. *)
Theorem title_stable_under_append
    (before : list Message) (content : string) (after more : list Message) :
  let log := (before ++ {| Message.role := user; Message.content := content |}
                     :: after)%list in
  titleOf (log ++ more) = titleOf log.
Proof.
  cbv zeta. unfold titleOf.
  destruct (find _ (before ++ _ :: after)) as [m|] eqn:F.
  - now rewrite (find_app_found _ _ more m F).
  - exfalso.
    assert (In {| Message.role := user; Message.content := content |}
              (before ++ {| Message.role := user; Message.content := content |}
                      :: after)) as M by (apply in_elt).
    apply (find_none _ _ F) in M. discriminate M.
Qed.

(** X6. A title never has more than 33 characters: 30 of the message and the
    three of the marker. *)
Theorem title_length_bound (msgs : list Message) :
  (String.length (titleOf msgs) <= 33)%nat.
Proof.
  unfold titleOf. destruct (find _ msgs) as [m|]; [|cbn; lia].
  rewrite length_append, slice_from_start by lia.
  pose proof (length_substring_le
                (Nat.min (Z.to_nat 30) (String.length (Message.content m)))
                0 (Message.content m)) as L.
  destruct (30 <? Z.of_nat (String.length (Message.content m))); cbn [String.length]; lia.
Qed.

(** ** The outcome of a request *)

(** X7. The [try] block reaches the construction of the assistant message
    exactly when the request resolved with a success status and a body whose
    [response] field is a non-empty string; that string is the content.  In
    every other case control reaches the [catch] clause. *)
Theorem response_accepted_iff (o : FetchOutcome) (content : string) :
  tryResponse o = inr content <->
  exists r, o = Resolved r /\ ok r = true /\
            json r = inr (Some content) /\ content <> "".
Proof.
  split.
  - destruct o as [e | r]; cbn; [discriminate|].
    destruct (ok r) eqn:K; cbn.
    + destruct (json r) as [e | [d|]] eqn:J; try discriminate.
      destruct (truthy d) eqn:T; [|discriminate].
      intros [= ->]. exists r. repeat split; try assumption.
      intros ->. discriminate T.
    + destruct (text r); discriminate.
  - intros [r [-> [K [J N]]]]. cbn. rewrite K, J. cbn.
    unfold truthy. apply String.eqb_neq in N. now rewrite N.
Qed.

(** X8. A whole submission of a non-blank input only extends the loaded log:
    by the user's message and, when the response is accepted, by the
    assistant's.  Whatever the outcome it ends with the busy flag off and the
    input line empty, and the error slot is empty after an accepted response
    and holds the message of the failure otherwise. *)
Theorem submission_outcome (s : State) (t_id t_created : Z) (o : FetchOutcome) :
  blank s = false ->
  let s' := handleSubmit s t_id t_created o in
  let userMessage := {| Message.role := user; Message.content := input s |} in
  messages s'
  = (messages s ++ userMessage ::
       match tryResponse o with
       | inr content => [ {| Message.role := assistant; Message.content := content |} ]
       | inl _ => []
       end)%list
  /\ isLoading s' = false
  /\ input s' = ""
  /\ error s' = match tryResponse o with
                | inr _ => None
                | inl e => Some (errorMessageOf e)
                end
  /\ model s' = model s.
Proof.
  intros B. cbv zeta. unfold handleSubmit, handleSubmit_settle. rewrite B.
  set (s1 := handleSubmit_begin s t_id t_created s).
  assert (messages s1 = newMessagesOf s /\ input s1 = "" /\ error s1 = None
          /\ model s1 = model s) as [M1 [I1 [E1 O1]]].
  { subst s1. unfold handleSubmit_begin. rewrite B.
    cbn [messages input error model setError setIsLoading setInput].
    destruct (updateCurrentChat_cursor s (newMessagesOf s)
                (setMessages (newMessagesOf s)
                   (if noCurrentChat (currentChatId s)
                    then createNewChat s t_id t_created s else s)))
      as [_ [-> [-> _]]].
    repeat split. now destruct (noCurrentChat (currentChatId s)). }
  destruct (tryResponse o) as [e | content];
    cbn [messages input error model isLoading setIsLoading setError].
  - rewrite M1, I1, O1. unfold newMessagesOf. now repeat split.
  - destruct (updateCurrentChat_cursor s
                (newMessagesOf s ++ [ {| Message.role := assistant;
                                         Message.content := content |} ])
                (setMessages
                   (newMessagesOf s ++ [ {| Message.role := assistant;
                                            Message.content := content |} ]) s1))
      as [_ [-> [-> [-> [_ ->]]]]].
    cbn [messages input error model setMessages]. rewrite I1, E1, O1.
    unfold newMessagesOf. rewrite <- app_assoc. now repeat split.
Qed.

Lemma submission_outcome_witness :
  blank twoChats = false /\
  messages (handleSubmit twoChats 1700000000009 1700000000009 (okResponse "Sure."))
  = [hello; hiThere; {| Message.role := user; Message.content := "And then?" |};
     {| Message.role := assistant; Message.content := "Sure." |}].
Proof.
  split; [reflexivity|].
  exact (proj1 (submission_outcome twoChats 1700000000009 1700000000009
                  (okResponse "Sure.") eq_refl)).
Defined.

(** ** Persistence *)

Section StorageFacts.

Variable JSON_stringify : list Chat -> string.
Variable JSON_parse : string -> Caught + list Chat.

Lemma unset_chats_kept (s : State) (op : Op) :
  setsChats s op = false -> chats (step s op) = chats s.
Proof.
  destruct op; cbn [setsChats step]; try discriminate; try reflexivity.
  - intros N. apply negb_false_iff in N. unfold updateCurrentChat. now rewrite N.
  - intros _. apply selectChat_chats.
  - intros N. apply negb_false_iff in N. unfold handleSubmit_begin. now rewrite N.
  - unfold handleSubmit_settle, updateCurrentChat.
    destruct (blank c); [reflexivity|]. cbn [negb andb].
    destruct (tryResponse o); [reflexivity|].
    intros N. apply negb_false_iff in N. now rewrite N.
  - intros _. apply selectChat_chats.
Qed.

Lemma stepStored_tracks (s : State) (stored : option string) (op : Op) :
  stored = Some (JSON_stringify (chats s)) ->
  stepStored JSON_stringify (s, stored) op
  = (step s op, Some (JSON_stringify (chats (step s op)))).
Proof.
  intros E. unfold stepStored, saveEffect. cbn [fst snd].
  destruct (setsChats s op) eqn:W; [reflexivity|].
  now rewrite (unset_chats_kept s op W), E.
Qed.

Lemma runStored_tracks (ops : list Op) : forall (s : State) (stored : option string),
  stored = Some (JSON_stringify (chats s)) ->
  runStored JSON_stringify (s, stored) ops
  = (run s ops, Some (JSON_stringify (chats (run s ops)))).
Proof.
  induction ops as [|op ops IH]; intros s stored E; cbn.
  - now rewrite E.
  - rewrite (stepStored_tracks s stored op E). now apply IH.
Qed.

(** X9. What mounting installs.  With no item, or an empty one, the store is
    the initial one.  With an item that parses to a collection, that
    collection is installed; when it is not empty the cursor is put on its
    first chat, whose log and model are loaded, so the cursor does not
    dangle.  If [JSON.parse] throws, so does mounting. *)
Theorem mount_installs (stored : option string) :
  match stored with
  | None => exists item, mount JSON_stringify JSON_parse stored = inr (initial, item)
  | Some savedChats =>
      if truthy savedChats then
        match JSON_parse savedChats with
        | inl e => mount JSON_stringify JSON_parse stored = inl e
        | inr parsedChats =>
            exists s item,
              mount JSON_stringify JSON_parse stored = inr (s, item) /\
              chats s = parsedChats /\
              cursorValid s = true /\
              match parsedChats with
              | first :: _ =>
                  currentChatId s = Some (Chat.id first) /\
                  messages s = Chat.messages first /\
                  model s = Chat.model first
              | [] => currentChatId s = None /\ messages s = [] /\
                      model s = model initial
              end
        end
      else exists item, mount JSON_stringify JSON_parse stored = inr (initial, item)
  end.
Proof.
  unfold mount, loadEffect. destruct stored as [savedChats|]; [|eexists; reflexivity].
  destruct (truthy savedChats); [|eexists; reflexivity].
  destruct (JSON_parse savedChats) as [e | [|first rest]]; [reflexivity | |].
  - do 2 eexists. repeat split.
  - do 2 eexists. split; [reflexivity|]. repeat split.
    unfold cursorValid, hasChat. cbn. now rewrite String.eqb_refl.
Qed.

(** X10. After mounting, and after every operation that follows, the item in
    storage is the serialisation of the collection in the store: the
    handlers that do not write the item do not change the collection. *)
Theorem storage_tracks_collection (stored : option string) (ops : list Op) :
  match mount JSON_stringify JSON_parse stored with
  | inl _ => True
  | inr (s, item) =>
      item = Some (JSON_stringify (chats s)) /\
      runStored JSON_stringify (s, item) ops
      = (run s ops, Some (JSON_stringify (chats (run s ops))))
  end.
Proof.
  destruct (mount JSON_stringify JSON_parse stored) as [e | [s item]] eqn:M; [exact I|].
  assert (item = Some (JSON_stringify (chats s))) as E.
  { unfold mount in M. destruct (loadEffect JSON_parse stored initial) as [e | s0] eqn:L;
      [discriminate|]. injection M as -> <-.
    unfold loadSetsChats, saveEffect. destruct stored as [savedChats|].
    - cbn in L. destruct (truthy savedChats); [reflexivity|].
      now injection L as <-.
    - now injection L as <-. }
  split; [exact E | now apply runStored_tracks].
Qed.

(** X11. Reloading.  If the host functions round-trip the collection reached
    by a sequence of operations, mounting again on the item that sequence
    left installs that same collection, with the cursor on its first chat,
    and leaves the item as it was. *)
Theorem reload_restores_collection (s : State) (ops : list Op) :
  let final := run s ops in
  let item := snd (runStored JSON_stringify
                     (s, saveEffect JSON_stringify s None) ops) in
  JSON_parse (JSON_stringify (chats final)) = inr (chats final) ->
  truthy (JSON_stringify (chats final)) = true ->
  exists reloaded,
    mount JSON_stringify JSON_parse item = inr (reloaded, item) /\
    chats reloaded = chats final /\
    match chats final with
    | first :: _ =>
        currentChatId reloaded = Some (Chat.id first) /\
        messages reloaded = Chat.messages first /\
        model reloaded = Chat.model first
    | [] => currentChatId reloaded = None /\ messages reloaded = []
    end.
Proof.
  intros final item P T.
  assert (item = Some (JSON_stringify (chats final))) as E.
  { subst item final. unfold saveEffect. now rewrite (runStored_tracks ops s _ eq_refl). }
  rewrite E. unfold mount, loadEffect, loadSetsChats, saveEffect. rewrite T, P.
  destruct (chats final) as [|first rest]; eexists; repeat split.
Qed.

End StorageFacts.

Lemma reload_restores_collection_witness :
  sampleParse (sampleStringify (chats (run twoChats [SelectChat "1700000000000"])))
  = inr (chats (run twoChats [SelectChat "1700000000000"])) /\
  truthy (sampleStringify (chats (run twoChats [SelectChat "1700000000000"]))) = true /\
  exists reloaded,
    mount sampleStringify sampleParse
      (snd (runStored sampleStringify
              (twoChats, saveEffect sampleStringify twoChats None)
              [SelectChat "1700000000000"]))
    = inr (reloaded,
           snd (runStored sampleStringify
                  (twoChats, saveEffect sampleStringify twoChats None)
                  [SelectChat "1700000000000"])) /\
    chats reloaded = [chatA; chatB] /\
    currentChatId reloaded = Some "1700000000001".
Proof.
  split; [reflexivity|]. split; [reflexivity|].
  destruct (reload_restores_collection sampleStringify sampleParse twoChats
              [SelectChat "1700000000000"] eq_refl eq_refl)
    as [reloaded [M [C [I _]]]].
  exists reloaded. split; [exact M|]. split; [exact C | exact I].
Defined.

(** ** The loaded log and the active chat *)

Lemma find_filter_other (chatId i : string) (l : list Chat) :
  i <> chatId ->
  find (fun ch => (Chat.id ch =? i)%string)
       (filter (fun chat => negb (Chat.id chat =? chatId)%string) l)
  = find (fun ch => (Chat.id ch =? i)%string) l.
Proof.
  intros N. induction l as [|a l IH]; cbn; [reflexivity|].
  destruct (String.eqb_spec (Chat.id a) chatId) as [E|E]; cbn.
  - destruct (String.eqb_spec (Chat.id a) i); [congruence | exact IH].
  - now rewrite IH.
Qed.

Lemma find_updateChat_other (c : State) (msgs : list Message) (j : string)
    (l : list Chat) :
  isCurrent (currentChatId c) j = false ->
  find (fun ch => (Chat.id ch =? j)%string) (map (updateChat c msgs) l)
  = find (fun ch => (Chat.id ch =? j)%string) l.
Proof.
  intros N. induction l as [|a l IH]; cbn; [reflexivity|].
  rewrite updateChat_id.
  destruct (String.eqb_spec (Chat.id a) j) as [E|E]; [|exact IH].
  unfold updateChat. now rewrite E, N.
Qed.

Lemma active_has (s : State) (i : string) (chat : Chat) :
  currentChatId s = Some i -> activeChat s = Some chat ->
  hasChat i (chats s) = true.
Proof.
  unfold activeChat. intros -> F. apply find_some in F as [M E].
  apply String.eqb_eq in E. apply hasChat_In. subst i. now apply in_map.
Qed.

(** A whole submission started with a chat active ends with the loaded log
    equal to that chat's log in the Collection. *)
Lemma handleSubmit_active_loaded (s : State) (i : string) (t_id t_created : Z)
    (o : FetchOutcome) :
  currentChatId s = Some i -> truthy i = true -> hasChat i (chats s) = true ->
  blank s = false ->
  let s' := handleSubmit s t_id t_created o in
  currentChatId s' = Some i /\
  exists chat, activeChat s' = Some chat /\ messages s' = Chat.messages chat.
Proof.
  intros C T H B. cbv zeta.
  assert (noCurrentChat (currentChatId s) = false) as A
    by (rewrite C; cbn; now rewrite T).
  unfold handleSubmit, handleSubmit_settle.
  rewrite B, (handleSubmit_begin_active s t_id t_created B A).
  destruct (tryResponse o) as [e | content].
  - split; [exact C|].
    destruct (activeChat_updated s s (newMessagesOf s) i C C T H) as [old [_ U]].
    eexists. split.
    + rewrite <- U. apply activeChat_ext; unfold updateCurrentChat; now rewrite A.
    + reflexivity.
  - set (updated := (newMessagesOf s ++ _)%list).
    set (s1 := setMessages updated _).
    assert (hasChat i (chats s1) = true) as H1
      by (subst s1; cbn [chats setMessages]; now rewrite hasChat_ids, ids_updateChat,
            <- hasChat_ids).
    destruct (activeChat_updated s s1 updated i C C T H1) as [old [_ U]].
    destruct (updateCurrentChat_cursor s updated s1) as [K [M _]].
    cbn [currentChatId messages setIsLoading]. split; [now rewrite K|].
    eexists. split.
    + rewrite <- U. now apply activeChat_ext.
    + now rewrite M.
Qed.

Lemma act_loaded (s : State) (a : Action) :
  cursorLoaded s ->
  match a with
  | Send _ _ _ => blank s || negb (noCurrentChat (currentChatId s))
  | _ => true
  end = true ->
  match a with
  | PickFrom _ _ => false
  | RemoveFrom _ _ => false
  | _ => true
  end = true ->
  cursorLoaded (act s a).
Proof.
  intros L G Latest.
  destruct a as [t_id t_created | chatId | chatId | m | v | t_id t_created o
                | c chatId | c chatId];
    cbn [act]; try discriminate Latest; clear Latest.
  - unfold cursorLoaded, activeChat. cbn. rewrite String.eqb_refl. now eexists.
  - unfold selectChat. destruct (find _ (chats s)) as [chat|] eqn:F; [|exact L].
    unfold cursorLoaded, activeChat. cbn. rewrite F. now exists chat.
  - unfold deleteChat. destruct (isCurrent (currentChatId s) chatId) eqn:C.
    + destruct (filter _ (chats s)) as [|first rest] eqn:F; [reflexivity|].
      unfold selectChat. rewrite (find_first_remaining _ _ _ _ F).
      unfold cursorLoaded, activeChat. cbn. rewrite F. cbn.
      rewrite String.eqb_refl. now exists first.
    + unfold cursorLoaded, activeChat in *. cbv zeta. cbn [setChats currentChatId chats messages].
      destruct (currentChatId s) as [i|]; [|exact L].
      cbn in C. apply String.eqb_neq in C. now rewrite find_filter_other.
  - exact L.
  - exact L.
  - destruct (blank s) eqn:B.
    + unfold handleSubmit, handleSubmit_settle, handleSubmit_begin. now rewrite B.
    + cbn in G. apply negb_true_iff in G.
      unfold cursorLoaded in L. destruct (currentChatId s) as [i|] eqn:C; [|discriminate G].
      destruct L as [chat [F _]]. cbn in G. apply negb_false_iff in G.
      destruct (handleSubmit_active_loaded s i t_id t_created o C G
                  (active_has s i chat C F) B) as [K R].
      unfold cursorLoaded. now rewrite K.
Qed.

Lemma sessionKeysDistinct_here (s : State) (l : list Action) :
  sessionKeysDistinct s l = true -> hasDuplicates (ids (chats s)) = false.
Proof.
  destruct l; cbn [sessionKeysDistinct]; intros K; apply andb_true_iff in K as [K _];
    now apply negb_true_iff in K.
Qed.

(** X12. In a session where nothing happens while a request is pending,
    every non-blank submission starts with a chat active and the ids of the
    Collection stay pairwise different, the loaded log is always the log the
    Collection holds for the active chat (and is empty when no chat is
    active), provided it was so at the start. *)
Theorem loaded_log_is_active_log (s : State) (l : list Action) :
  cursorLoaded s ->
  sendsWithChat s l = true ->
  sessionKeysDistinct s l = true ->
  sessionAdmitted (hasDuplicates (ids (chats s))) s l = true ->
  cursorLoaded (perform s l).
Proof.
  intros L G K A. rewrite (sessionKeysDistinct_here s l K) in A.
  revert s L G K A. induction l as [|a l IH]; intros s L G K A; [exact L|].
  cbn [sendsWithChat] in G. apply andb_true_iff in G as [Ga Gl].
  cbn [sessionKeysDistinct] in K. apply andb_true_iff in K as [_ K].
  cbn [sessionAdmitted] in A. apply andb_true_iff in A as [Aa Al].
  rewrite (sessionKeysDistinct_here _ _ K) in Al. cbn [orb] in Al.
  cbn [perform fold_left]. apply IH; try assumption.
  apply act_loaded; [exact L | exact Ga |].
  destruct a; try reflexivity; discriminate Aa.
Qed.

Lemma loaded_log_is_active_log_witness :
  cursorLoaded twoChats /\
  sendsWithChat twoChats
    [Send 1700000000009 1700000000009 (okResponse "Sure."); Remove "1700000000001";
     Type_ "More"; Send 1700000000010 1700000000010 serverError] = true /\
  sessionKeysDistinct twoChats
    [Send 1700000000009 1700000000009 (okResponse "Sure."); Remove "1700000000001";
     Type_ "More"; Send 1700000000010 1700000000010 serverError] = true /\
  sessionAdmitted (hasDuplicates (ids (chats twoChats))) twoChats
    [Send 1700000000009 1700000000009 (okResponse "Sure."); Remove "1700000000001";
     Type_ "More"; Send 1700000000010 1700000000010 serverError] = true /\
  cursorLoaded
    (perform twoChats
       [Send 1700000000009 1700000000009 (okResponse "Sure."); Remove "1700000000001";
        Type_ "More"; Send 1700000000010 1700000000010 serverError]).
Proof.
  assert (cursorLoaded twoChats) as L by (exists chatA; split; reflexivity).
  split; [exact L|]. split; [reflexivity|]. split; [reflexivity|].
  split; [reflexivity|].
  apply (loaded_log_is_active_log twoChats
           [Send 1700000000009 1700000000009 (okResponse "Sure."); Remove "1700000000001";
            Type_ "More"; Send 1700000000010 1700000000010 serverError] L);
    reflexivity.
Defined.

(** X13. Selecting another chat while a request is pending: the accepted
    answer is written into the chat the submission started in, the other
    chat keeps its record, the cursor stays on the other chat, and yet the
    loaded log becomes the log of the chat the submission started in. *)
Theorem answer_lands_in_submitting_chat
    (s : State) (i j content : string) (t_id t_created : Z) (o : FetchOutcome) :
  currentChatId s = Some i -> truthy i = true -> hasChat i (chats s) = true ->
  hasChat j (chats s) = true -> j <> i ->
  blank s = false ->
  tryResponse o = inr content ->
  let log := (messages s ++ [ {| Message.role := user; Message.content := input s |};
                              {| Message.role := assistant; Message.content := content |} ])%list in
  let s' := run s [Submit t_id t_created; SelectChat j; Settle s o] in
  currentChatId s' = Some j /\
  messages s' = log /\
  (exists chat, find (fun ch => (Chat.id ch =? i)%string) (chats s') = Some chat /\
                Chat.messages chat = log) /\
  find (fun ch => (Chat.id ch =? j)%string) (chats s')
  = find (fun ch => (Chat.id ch =? j)%string) (chats s).
Proof.
  intros C T Hi Hj N B R log s'.
  assert (noCurrentChat (currentChatId s) = false) as A
    by (rewrite C; cbn; now rewrite T).
  assert (isCurrent (currentChatId s) j = false) as NJ
    by (rewrite C; cbn; apply String.eqb_neq; congruence).
  assert (log = (newMessagesOf s ++ [ {| Message.role := assistant;
                                         Message.content := content |} ])%list) as EL
    by (unfold log, newMessagesOf; now rewrite <- app_assoc).
  subst s'. cbn [run fold_left step].
  rewrite (handleSubmit_begin_active s t_id t_created B A).
  set (s1 := {| chats := _; currentChatId := _; messages := _; input := _;
                isLoading := _; model := _; error := _ |}).
  assert (exists cj, find (fun ch => (Chat.id ch =? j)%string) (chats s1) = Some cj) as [cj Fj].
  { subst s1. cbn [chats]. rewrite find_updateChat_other by exact NJ.
    destruct (find _ (chats s)) as [cj|] eqn:F; [now exists cj|].
    exfalso. apply hasChat_In, in_map_iff in Hj as [ch [E M]].
    apply (find_none _ _ F) in M. rewrite E, String.eqb_refl in M. discriminate. }
  unfold selectChat. rewrite Fj.
  unfold handleSubmit_settle. rewrite B, R.
  unfold updateCurrentChat. rewrite A. rewrite <- EL.
  cbn [currentChatId messages chats setIsLoading setChats setMessages setModel
         setCurrentChatId].
  split; [reflexivity|]. split; [reflexivity|]. split.
  - subst s1. cbn [chats]. rewrite !find_updateChat.
    destruct (find _ (chats s)) as [old|] eqn:F.
    + cbn. eexists. split; [reflexivity|].
      apply find_some in F as [_ E]. unfold updateChat at 1. rewrite updateChat_id.
      rewrite C. cbn [isCurrent]. now rewrite String.eqb_sym, E.
    + exfalso. apply hasChat_In, in_map_iff in Hi as [ch [E M]].
      apply (find_none _ _ F) in M. rewrite E, String.eqb_refl in M. discriminate.
  - subst s1. cbn [chats]. now rewrite !find_updateChat_other.
Qed.

Lemma answer_lands_in_submitting_chat_witness :
  blank twoChats = false /\
  currentChatId (run twoChats [Submit 1700000000009 1700000000009;
                               SelectChat "1700000000000";
                               Settle twoChats (okResponse "Sure.")])
  = Some "1700000000000" /\
  messages (run twoChats [Submit 1700000000009 1700000000009;
                          SelectChat "1700000000000";
                          Settle twoChats (okResponse "Sure.")])
  = [hello; hiThere; {| Message.role := user; Message.content := "And then?" |};
     {| Message.role := assistant; Message.content := "Sure." |}].
Proof.
  split; [reflexivity|].
  destruct (answer_lands_in_submitting_chat twoChats "1700000000001" "1700000000000"
              "Sure." 1700000000009 1700000000009 (okResponse "Sure.")
              eq_refl eq_refl eq_refl eq_refl) as [K [M _]];
    [discriminate | reflexivity | reflexivity |].
  split; [exact K | exact M].
Defined.

(** ** Settlements, deletions and creations *)

(** X14. The settlement of a request, whatever render it started in and
    whatever its outcome, neither adds nor removes a chat and does not move
    the cursor or change the selected model and the input line: a chat
    deleted while the request was pending does not come back. *)
Theorem settlement_frame (c : State) (o : FetchOutcome) (s : State) :
  let s' := handleSubmit_settle c o s in
  ids (chats s') = ids (chats s) /\
  currentChatId s' = currentChatId s /\
  model s' = model s /\
  input s' = input s /\
  (forall chatId, hasChat chatId (chats s) = false -> hasChat chatId (chats s') = false).
Proof.
  cbv zeta.
  assert (ids (chats (handleSubmit_settle c o s)) = ids (chats s)) as E
    by apply handleSubmit_settle_ids.
  split; [exact E|]. repeat split.
  - unfold handleSubmit_settle. destruct (blank c); [reflexivity|].
    destruct (tryResponse o); cbn [currentChatId setIsLoading setError]; [reflexivity|].
    apply (updateCurrentChat_cursor c _ (setMessages _ s)).
  - unfold handleSubmit_settle. destruct (blank c); [reflexivity|].
    destruct (tryResponse o); cbn [model setIsLoading setError]; [reflexivity|].
    apply (updateCurrentChat_cursor c _ (setMessages _ s)).
  - unfold handleSubmit_settle. destruct (blank c); [reflexivity|].
    destruct (tryResponse o); cbn [input setIsLoading setError]; [reflexivity|].
    apply (updateCurrentChat_cursor c _ (setMessages _ s)).
  - intros chatId. now rewrite !hasChat_ids, E.
Qed.

Lemma setChats_same (f : list Chat -> list Chat) (s : State) :
  f (chats s) = chats s -> setChats f s = s.
Proof. destruct s. unfold setChats. cbn. now intros ->. Qed.

Lemma filter_twice {A : Type} (f : A -> bool) (l : list A) :
  filter f (filter f l) = filter f l.
Proof.
  induction l as [|a l IH]; cbn; [reflexivity|].
  destruct (f a) eqn:F; cbn; [now rewrite F, IH | exact IH].
Qed.

Lemma filter_absent (chatId : string) (l : list Chat) :
  hasChat chatId l = false ->
  filter (fun chat => negb (Chat.id chat =? chatId)%string) l = l.
Proof.
  unfold hasChat. induction l as [|a l IH]; cbn; [reflexivity|].
  intros H. apply orb_false_iff in H as [E R]. rewrite E. cbn. now rewrite IH.
Qed.

Lemma deleteChat_leaves_cursor_off (s : State) (chatId : string) :
  isCurrent (currentChatId (deleteChat s chatId s)) chatId = false.
Proof.
  unfold deleteChat. destruct (isCurrent (currentChatId s) chatId) eqn:C; [|exact C].
  destruct (filter _ (chats s)) as [|first rest] eqn:F; [reflexivity|].
  unfold selectChat. rewrite (find_first_remaining _ _ _ _ F). cbn.
  assert (In first (filter (fun chat => negb (Chat.id chat =? chatId)%string) (chats s)))
    as M by (rewrite F; now left).
  apply filter_In in M as [_ K]. now apply negb_true_iff in K.
Qed.

(** X15. Deleting is idempotent: deleting the same id a second time changes
    nothing. *)
Theorem deleteChat_idempotent (s : State) (chatId : string) :
  let s1 := deleteChat s chatId s in
  deleteChat s1 chatId s1 = s1.
Proof.
  cbv zeta. set (s1 := deleteChat s chatId s).
  unfold deleteChat at 1. fold s1.
  replace (isCurrent (currentChatId s1) chatId) with false
    by (symmetry; apply deleteChat_leaves_cursor_off).
  apply setChats_same. unfold s1. rewrite deleteChat_chats. apply filter_twice.
Qed.



(** X17. Creating a chat whose id no chat carries and deleting it again
    gives back the collection as it was, with the cursor on its first chat
    (that chat's log and model loaded) or on none when it is empty. *)
Theorem create_then_delete (s : State) (t_id t_created : Z) :
  ~ In (toString t_id) (ids (chats s)) ->
  let s' := run s [CreateChat t_id t_created; DeleteChat (toString t_id)] in
  chats s' = chats s /\
  match chats s with
  | first :: _ =>
      currentChatId s' = Some (Chat.id first) /\
      messages s' = Chat.messages first /\
      model s' = Chat.model first
  | [] => currentChatId s' = None /\ messages s' = [] /\ model s' = model s
  end.
Proof.
  intros N. cbv zeta.
  assert (hasChat (toString t_id) (chats s) = false) as H.
  { destruct (hasChat (toString t_id) (chats s)) eqn:E; [|reflexivity].
    exfalso. now apply N, hasChat_In. }
  pose proof (filter_absent _ _ H) as F.
  cbn [run fold_left step]. set (s1 := createNewChat s t_id t_created s).
  assert (filter (fun chat => negb (Chat.id chat =? toString t_id)%string) (chats s1)
          = chats s) as K
    by (cbn; rewrite String.eqb_refl; exact F).
  split; [now rewrite deleteChat_chats|].
  unfold deleteChat.
  replace (isCurrent (currentChatId s1) (toString t_id)) with true
    by (cbn; now rewrite String.eqb_refl).
  rewrite K. destruct (chats s) as [|first rest] eqn:L.
  - now repeat split.
  - unfold selectChat. rewrite (find_first_remaining _ _ _ _ K). now repeat split.
Qed.

Lemma create_then_delete_witness :
  ~ In (toString 1700000000007) (ids (chats twoChats)) /\
  chats (run twoChats [CreateChat 1700000000007 1700000000008;
                       DeleteChat (toString 1700000000007)])
  = chats twoChats.
Proof.
  assert (~ In (toString 1700000000007) (ids (chats twoChats))) as N
    by (intros [E|[E|[]]]; discriminate E).
  split; [exact N|].
  exact (proj1 (create_then_delete twoChats 1700000000007 1700000000008 N)).
Defined.

(** ** What a submission sends and creates *)

(** X18. When a non-blank input is submitted from a store whose cursor does
    not dangle, the request carries the selected model and the input as the
    prompt; after the first part of the submission that model is the one
    recorded in the active chat, and the prompt is the content of the last
    message of the loaded log. *)
Theorem request_matches_active_chat (s : State) (t_id t_created : Z) :
  blank s = false ->
  cursorValid s = true ->
  let s1 := handleSubmit_begin s t_id t_created s in
  let request := requestOf s in
  (exists chat, activeChat s1 = Some chat /\ Chat.model chat = req_model request) /\
  model s1 = req_model request /\
  messages s1 = (messages s ++ [ {| Message.role := user;
                                    Message.content := req_prompt request |} ])%list /\
  req_stream request = false.
Proof.
  intros B V. cbv zeta.
  destruct (noCurrentChat (currentChatId s)) eqn:A.
  - rewrite (handleSubmit_begin_fresh s t_id t_created B A).
    unfold activeChat. cbn. rewrite String.eqb_refl. repeat split. now eexists.
  - rewrite (handleSubmit_begin_active s t_id t_created B A).
    cbn [model messages]. repeat split.
    unfold cursorValid in V. destruct (currentChatId s) as [i|] eqn:C; [|discriminate A].
    cbn in A. apply negb_false_iff in A.
    destruct (activeChat_updated s s (newMessagesOf s) i C C A V) as [old [_ U]].
    eexists. split.
    + rewrite <- U. apply activeChat_ext; unfold updateCurrentChat; rewrite C; cbn;
        now rewrite A.
    + reflexivity.
Qed.

Lemma request_matches_active_chat_witness :
  blank twoChats = false /\ cursorValid twoChats = true /\
  model (handleSubmit_begin twoChats 1700000000009 1700000000009 twoChats)
  = req_model (requestOf twoChats).
Proof.
  split; [reflexivity|]. split; [reflexivity|].
  destruct (request_matches_active_chat twoChats 1700000000009 1700000000009
              eq_refl eq_refl) as [_ [M _]].
  exact M.
Defined.

(** X19. The first part of a submission adds a chat exactly when the input
    is not blank and the cursor is empty, and then exactly one; a submission
    that follows the creation of a chat never adds another. *)
Theorem submission_adds_at_most_one_chat (s : State) (t_id t_created : Z) :
  length (chats (handleSubmit_begin s t_id t_created s))
  = (length (chats s)
     + (if negb (blank s) && noCurrentChat (currentChatId s) then 1 else 0))%nat
  /\
  (forall t1 t2 v,
      length (chats (run s [CreateChat t1 t2; SetInput v; Submit t_id t_created]))
      = S (length (chats s))).
Proof.
  assert (forall u, length (chats (handleSubmit_begin u t_id t_created u))
                    = (length (chats u)
                       + (if negb (blank u) && noCurrentChat (currentChatId u)
                          then 1 else 0))%nat) as G.
  { intros u. destruct (blank u) eqn:B; cbn [negb andb].
    - unfold handleSubmit_begin. rewrite B. lia.
    - destruct (noCurrentChat (currentChatId u)) eqn:A.
      + rewrite (handleSubmit_begin_fresh u t_id t_created B A). cbn. lia.
      + rewrite (handleSubmit_begin_active u t_id t_created B A). cbn.
        rewrite length_map. lia. }
  split; [apply G|].
  intros t1 t2 v. cbn [run fold_left step]. rewrite G.
  cbn [currentChatId chats setInput createNewChat setMessages setCurrentChatId
         setChats noCurrentChat Chat.id length].
  rewrite toString_truthy. cbn [negb]. rewrite andb_false_r. lia.
Qed.

(** ** Newest first *)

Lemma newestFirst_weaken (b b' : Z) (l : list Chat) :
  b <= b' -> newestFirst b l = true -> newestFirst b' l = true.
Proof.
  intros L. destruct l as [|chat rest]; cbn; [trivial|].
  intros H. apply andb_true_iff in H as [H R]. apply Z.leb_le in H.
  apply andb_true_iff. split; [apply Z.leb_le; lia | exact R].
Qed.

Lemma newestFirst_filter (f : Chat -> bool) (l : list Chat) : forall b,
  newestFirst b l = true -> newestFirst b (filter f l) = true.
Proof.
  induction l as [|chat rest IH]; intros b; cbn; [trivial|].
  intros H. apply andb_true_iff in H as [H R]. destruct (f chat); cbn.
  - rewrite H. cbn. now apply IH.
  - apply IH. apply Z.leb_le in H. now apply (newestFirst_weaken (Chat.createdAt chat)).
Qed.

Lemma newestFirst_updateChat (c : State) (msgs : list Message) (l : list Chat) :
  forall b, newestFirst b (map (updateChat c msgs) l) = newestFirst b l.
Proof.
  assert (forall chat, Chat.createdAt (updateChat c msgs chat) = Chat.createdAt chat) as K
    by (intros chat; unfold updateChat; now destruct isCurrent).
  induction l as [|chat rest IH]; intros b; cbn; [reflexivity|].
  now rewrite K, IH.
Qed.

Lemma updateCurrentChat_newestFirst (c : State) (msgs : list Message) (s : State) (b : Z) :
  newestFirst b (chats (updateCurrentChat c msgs s)) = newestFirst b (chats s).
Proof.
  unfold updateCurrentChat. destruct noCurrentChat; cbn; [reflexivity|].
  apply newestFirst_updateChat.
Qed.

Lemma step_newestFirst (bound : Z) (s : State) (op : Op) (rest : list Op) :
  newestFirst bound (chats s) = true ->
  createdNondecreasing bound (op :: rest) = true ->
  exists bound',
    newestFirst bound' (chats (step s op)) = true /\
    createdNondecreasing bound' rest = true.
Proof.
  intros S C. destruct op; cbn [createdNondecreasing] in C; cbn [step].
  - apply andb_true_iff in C as [L R]. exists t_created. split; [|exact R].
    cbn. rewrite Z.leb_refl. cbn. apply Z.leb_le in L.
    now apply (newestFirst_weaken bound).
  - exists bound. now rewrite updateCurrentChat_newestFirst.
  - exists bound. now rewrite selectChat_chats.
  - exists bound. rewrite deleteChat_chats. split; [now apply newestFirst_filter | exact C].
  - now exists bound.
  - now exists bound.
  - apply andb_true_iff in C as [L R]. apply Z.leb_le in L.
    exists t_created. split; [|exact R].
    unfold handleSubmit_begin. destruct (blank s);
      [now apply (newestFirst_weaken bound)|].
    cbn [chats setError setIsLoading setInput].
    rewrite updateCurrentChat_newestFirst. cbn [chats setMessages].
    destruct (noCurrentChat (currentChatId s)).
    + cbn. rewrite Z.leb_refl. cbn. now apply (newestFirst_weaken bound).
    + now apply (newestFirst_weaken bound).
  - exists bound. split; [|exact C].
    unfold handleSubmit_settle. destruct (blank c); [exact S|].
    destruct (tryResponse o); cbn [chats setIsLoading setError]; [exact S|].
    now rewrite updateCurrentChat_newestFirst.
  - exists bound. now rewrite selectChat_chats.
  - exists bound. rewrite deleteChat_chats. split; [now apply newestFirst_filter | exact C].
Qed.

(** X20. If the collection is ordered newest first and the creation times
    given to new chats never go back, every sequence of operations leaves the
    collection ordered newest first: its first chat, the one mounting puts
    the cursor on, is a most recent one. *)
Theorem collection_stays_newest_first (s : State) (bound : Z) (ops : list Op) :
  newestFirst bound (chats s) = true ->
  createdNondecreasing bound ops = true ->
  exists bound',
    newestFirst bound' (chats (run s ops)) = true /\
    forall first rest chat,
      chats (run s ops) = first :: rest -> In chat rest ->
      Chat.createdAt chat <= Chat.createdAt first.
Proof.
  intros S C.
  assert (exists bound', newestFirst bound' (chats (run s ops)) = true) as [b R].
  { revert s bound S C. induction ops as [|op ops IH]; intros s bound S C.
    - now exists bound.
    - destruct (step_newestFirst bound s op ops S C) as [b1 [S1 C1]].
      exact (IH (step s op) b1 S1 C1). }
  exists b. split; [exact R|].
  intros first rest chat E. rewrite E in R. cbn in R.
  apply andb_true_iff in R as [_ R]. clear E. revert R.
  generalize (Chat.createdAt first) as top.
  induction rest as [|x rest IH]; intros top R M; [contradiction|].
  cbn in R. apply andb_true_iff in R as [X R]. apply Z.leb_le in X.
  destruct M as [<- | M]; [exact X|].
  specialize (IH (Chat.createdAt x) R M). lia.
Qed.

Lemma collection_stays_newest_first_witness :
  newestFirst 1700000000001 (chats twoChats) = true /\
  createdNondecreasing 1700000000001
    [Submit 1700000000002 1700000000002; DeleteChat "1700000000001";
     CreateChat 1700000000003 1700000000003] = true /\
  exists bound',
    newestFirst bound'
      (chats (run twoChats [Submit 1700000000002 1700000000002;
                            DeleteChat "1700000000001";
                            CreateChat 1700000000003 1700000000003])) = true.
Proof.
  split; [reflexivity|]. split; [reflexivity|].
  destruct (collection_stays_newest_first twoChats 1700000000001
              [Submit 1700000000002 1700000000002; DeleteChat "1700000000001";
               CreateChat 1700000000003 1700000000003] eq_refl eq_refl)
    as [b [R _]].
  now exists b.
Defined.

(** ** From mounting onward *)

Lemma mount_valid
    (JSON_stringify : list Chat -> string) (JSON_parse : string -> Caught + list Chat)
    (stored : option string) (s : State) (item : option string) :
  mount JSON_stringify JSON_parse stored = inr (s, item) -> cursorValid s = true.
Proof.
  unfold mount, loadEffect. destruct stored as [savedChats|].
  - destruct (truthy savedChats).
    + destruct (JSON_parse savedChats) as [e | [|first rest]]; [discriminate | |];
        intros [= <- _]; [reflexivity|].
      unfold cursorValid, hasChat. cbn. now rewrite String.eqb_refl.
    + now intros [= <- _].
  - now intros [= <- _].
Qed.

(** X21. If mounting succeeds and installs a store from which a sequence of
    operations keeps the ids of the Collection pairwise different, then
    after that sequence the active chat id, when not none, is the id of a
    chat of the Collection. *)
Theorem cursor_valid_from_mount
    (JSON_stringify : list Chat -> string) (JSON_parse : string -> Caught + list Chat)
    (stored : option string) (s : State) (item : option string) (ops : list Op) :
  mount JSON_stringify JSON_parse stored = inr (s, item) ->
  keysDistinct s ops = true ->
  admitted s ops = true ->
  cursorValid s = true /\
  match currentChatId (run s ops) with
  | None => True
  | Some i => exists chat, In chat (chats (run s ops)) /\ Chat.id chat = i
  end.
Proof.
  intros M K A.
  pose proof (mount_valid JSON_stringify JSON_parse stored s item M) as V.
  split; [exact V|].
  unfold admitted in A. rewrite (keysDistinct_here s ops K) in A.
  pose proof (run_valid ops s (distinct_keys_rows_current ops s K A) V) as R.
  unfold cursorValid in R. destruct (currentChatId (run s ops)) as [i|]; [|exact I].
  apply hasChat_In, in_map_iff in R as [chat [E In_]]. now exists chat.
Qed.

Lemma cursor_valid_from_mount_witness :
  mount sampleStringify sampleParse (Some "[1700000000001,1700000000000]")
  = inr (setInput "" (setError None twoChats), Some "[1700000000001,1700000000000]") /\
  keysDistinct (setInput "" (setError None twoChats))
    [DeleteChat "1700000000001"; CreateChat 1700000000005 1700000000005] = true /\
  admitted (setInput "" (setError None twoChats))
    [DeleteChat "1700000000001"; CreateChat 1700000000005 1700000000005] = true /\
  match currentChatId (run (setInput "" (setError None twoChats))
                         [DeleteChat "1700000000001";
                          CreateChat 1700000000005 1700000000005]) with
  | None => True
  | Some i => exists chat,
      In chat (chats (run (setInput "" (setError None twoChats))
                        [DeleteChat "1700000000001";
                         CreateChat 1700000000005 1700000000005]))
      /\ Chat.id chat = i
  end.
Proof.
  split; [reflexivity|]. split; [reflexivity|]. split; [reflexivity|].
  apply (cursor_valid_from_mount sampleStringify sampleParse
           (Some "[1700000000001,1700000000000]")
           (setInput "" (setError None twoChats))
           (Some "[1700000000001,1700000000000]")
           [DeleteChat "1700000000001"; CreateChat 1700000000005 1700000000005]);
    reflexivity.
Defined.
